(** * drive-linkup: live location, booking and trip handlers

    A shallow embedding of the TypeScript handlers of the ride-sharing
    client (React components over a Supabase backend) and the properties
    of its specification that can be stated about them.

    Layout:
    - [Loc]: location rows and the two "latest row per actor" reducers of
      the map components;
    - [Store]: the tables and what an accepted request does to them;
    - [Fx]: a small state / trace / exception monad for the handlers;
    - one module per source component ([DriverDashboard],
      [DriverDashboard002], [PassengerDashboard], [TripDetails],
      [CreateTrip], [Presenter], [ShareButton], [PassengerBookings],
      [TripDetailsExisting], [LiveMap], [Route]), with the collaborators
      they call (geolocation watches, realtime channels, map widget) as
      part of their state;
    - the edge functions ([Notification], [Directions]);
    - the facts, one module per subject. *)

From stdpp Require Import base list strings gmap sorting pretty.
From Stdlib Require Import ZArith Lia.

Local Open Scope Z_scope.

(* ================================================================== *)
(** * Location rows and the latest-per-actor reducers                  *)
(* ================================================================== *)

Module Loc.

(** A row of [driver_locations] / [passenger_locations] (the two tables
    have the same columns; [actor_id] stands for [driver_id] resp.
    [passenger_id]).  Instants are integers: [updated_at] is the stored
    [TIMESTAMPTZ] in microseconds, the resolution the database orders by.
    Coordinates, heading and speed are payload carried as integers
    (fixed-point); nothing below computes on them. *)
Record LocationRow := {
  id : string;
  actor_id : string;
  trip_id : option string;
  latitude : Z;
  longitude : Z;
  heading : option Z;
  speed : option Z;
  updated_at : Z
}.

#[global] Instance LocationRow_eq_dec : EqDecision LocationRow.
Proof. solve_decision. Defined.

(** [new Date(s)]: a JavaScript [Date] holds milliseconds, so the
    comparison made by the reducers is on the instant cut to
    milliseconds. *)
Definition new_Date (t : Z) : Z := t `div` 1000.

(** [acc.find(l => l.driver_id === a)]: the first row of that actor. *)
Definition find (a : string) (acc : list LocationRow) : option LocationRow :=
  snd <$> list_find (λ l, actor_id l = a) acc.

(** [acc.indexOf(existing)]: the first position holding that row, [None]
    for JavaScript's [-1]. *)
Definition indexOf (existing : LocationRow) (acc : list LocationRow) : option nat :=
  fst <$> list_find (λ l, l = existing) acc.

(** [acc.push(x)]. *)
Definition push (acc : list LocationRow) (x : LocationRow) : list LocationRow :=
  acc ++ [x].

(** The callback of [data.reduce] in
    [EnhancedMapComponent.fetchDriverLocations] (both copies):
    push the row unless one of its driver is already there. *)
Definition first_seen_step (acc : list LocationRow) (location : LocationRow)
  : list LocationRow :=
  match find (actor_id location) acc with
  | None => push acc location
  | Some _ => acc
  end.

Definition latest_first_seen (data : list LocationRow) : list LocationRow :=
  foldl first_seen_step [] data.

(** The callback of [data.reduce] in [MapComponent.fetchDriverLocations]
    and [EnhancedMapComponent.fetchPassengerLocations]: push a row of a
    new actor, overwrite the actor's row when the current one is strictly
    later.  With [indexOf] at [-1] the assignment [acc[-1] = current]
    would set a property and leave the elements alone. *)
Definition replace_step (acc : list LocationRow) (current : LocationRow)
  : list LocationRow :=
  match find (actor_id current) acc with
  | None => push acc current
  | Some existing =>
      if decide (new_Date (updated_at existing) < new_Date (updated_at current))
      then match indexOf existing acc with
           | Some index => <[index := current]> acc
           | None => acc
           end
      else acc
  end.

Definition latest_replace (data : list LocationRow) : list LocationRow :=
  foldl replace_step [] data.

(** [.order('updated_at', { ascending: false })]: the rows come back
    ordered by [updated_at], latest first. *)
Definition later_or_equal (r1 r2 : LocationRow) : Prop :=
  updated_at r2 ≤ updated_at r1.

#[global] Instance later_or_equal_dec : RelDecision later_or_equal.
Proof. intros r1 r2. unfold later_or_equal. apply _. Defined.

Definition order_desc (rows : list LocationRow) : list LocationRow :=
  merge_sort later_or_equal rows.

(** The three fetches, on the rows the select returns. *)
Definition fetchDriverLocations_enhanced (rows : list LocationRow) :=
  latest_first_seen (order_desc rows).
Definition fetchDriverLocations_map (rows : list LocationRow) :=
  latest_replace (order_desc rows).
Definition fetchPassengerLocations (rows : list LocationRow) :=
  latest_replace (order_desc rows).

(** The mapping from actor id to row that a result list stands for. *)
Definition as_mapping (l : list LocationRow) : gmap string LocationRow :=
  list_to_map ((λ r, (actor_id r, r)) <$> l).

(** What "latest per actor" asks of a result for the rows [rows]. *)
Record latest_per_actor (rows result : list LocationRow) : Prop := {
  lpa_one_row : NoDup (actor_id <$> result);
  lpa_actors : ∀ a, a ∈ actor_id <$> result ↔ a ∈ actor_id <$> rows;
  lpa_from_rows : ∀ r, r ∈ result → r ∈ rows;
  lpa_latest : ∀ r r', r ∈ result → r' ∈ rows →
                 actor_id r' = actor_id r → updated_at r' ≤ updated_at r
}.

End Loc.


(* ================================================================== *)
(** * The backing store                                                *)
(* ================================================================== *)

(** The tables the handlers write to.  The TypeScript row types live in
    [@/types]; the columns are those of the migrations. *)

Module trip_status.
Inductive t := scheduled | active | completed | cancelled.
#[global] Instance eq_dec : EqDecision t.
Proof. solve_decision. Defined.
End trip_status.

Module booking_status.
Inductive t := pending | accepted | rejected | cancelled.
#[global] Instance eq_dec : EqDecision t.
Proof. solve_decision. Defined.

(** The status as it is spliced into a template string. *)
Definition text (s : t) : string :=
  match s with
  | pending => "pending"
  | accepted => "accepted"
  | rejected => "rejected"
  | cancelled => "cancelled"
  end.
End booking_status.

Module Trip.
Record Trip := {
  id : string;
  driver_id : string;
  start_location : string;
  destination : string;
  start_lat : option Z;
  start_lng : option Z;
  dest_lat : option Z;
  dest_lng : option Z;
  departure_time : Z;
  available_seats : Z;
  price_per_seat : option Z;
  status : trip_status.t;
  description : option string
}.
End Trip.

Module Booking.
Record Booking := {
  id : string;
  trip_id : string;
  passenger_id : string;
  seats_requested : Z;
  status : booking_status.t;
  message : option string;
  created_at : Z;
  updated_at : Z
}.

Definition with_status (st : booking_status.t) (now : Z) (b : Booking) : Booking :=
  {| id := id b; trip_id := trip_id b; passenger_id := passenger_id b;
     seats_requested := seats_requested b; status := st; message := message b;
     created_at := created_at b; updated_at := now |}.
End Booking.

Module Store.

(** The object literals handed to [insert] / [upsert]. *)
Record LocationValues := {
  v_actor_id : option string;     (* [user?.id], [profile?.user_id] *)
  v_trip_id : option string;
  v_latitude : Z;
  v_longitude : Z;
  v_heading : option Z;
  v_speed : option Z
}.

Record BookingValues := {
  v_booking_trip : string;
  v_passenger_id : string;
  v_seats_requested : Z;
  v_message : option string;
  v_booking_status : booking_status.t
}.

Record TripValues := {
  v_driver_id : string;
  v_start_location : string;
  v_destination : string;
  v_departure_time : Z;
  v_available_seats : Z;
  v_price_per_seat : option Z;
  v_description : option string;
  v_trip_status : trip_status.t
}.

Inductive location_table := driver_locations_t | passenger_locations_t.

(** What a handler asks of the backend. *)
Inductive request :=
  | InsertLocation (t : location_table) (v : LocationValues)
  | UpsertDriverLocation (v : LocationValues)        (* onConflict: 'driver_id' *)
  | InsertBooking (v : BookingValues)
  | UpdateBookingStatus (bookingId : string) (st : booking_status.t)
  | InsertTrip (v : TripValues)
  | Select (table : string)
  | InvokeFunction (name : string) (bookingId : string) (type : string).

Record Db := {
  driver_locations : list Loc.LocationRow;
  passenger_locations : list Loc.LocationRow;
  bookings : list Booking.Booking;
  trips : list Trip.Trip
}.

(** The backend's side of a request: it either runs it, filling the
    generated columns ([gen_random_uuid()], [now()]), or refuses it
    (row-level security, constraint, transport). *)
Record stamp := { gen_id : string; now : Z }.
Inductive reply := Accepts (st : stamp) | Rejects (message : string).

Definition new_location (st : stamp) (a : string) (v : LocationValues) : Loc.LocationRow :=
  {| Loc.id := gen_id st; Loc.actor_id := a; Loc.trip_id := v_trip_id v;
     Loc.latitude := v_latitude v; Loc.longitude := v_longitude v;
     Loc.heading := v_heading v; Loc.speed := v_speed v;
     Loc.updated_at := now st |}.

Definition new_booking (st : stamp) (v : BookingValues) : Booking.Booking :=
  {| Booking.id := gen_id st; Booking.trip_id := v_booking_trip v;
     Booking.passenger_id := v_passenger_id v;
     Booking.seats_requested := v_seats_requested v;
     Booking.status := v_booking_status v; Booking.message := v_message v;
     Booking.created_at := now st; Booking.updated_at := now st |}.

Definition new_trip (st : stamp) (v : TripValues) : Trip.Trip :=
  {| Trip.id := gen_id st; Trip.driver_id := v_driver_id v;
     Trip.start_location := v_start_location v; Trip.destination := v_destination v;
     Trip.start_lat := None; Trip.start_lng := None;
     Trip.dest_lat := None; Trip.dest_lng := None;
     Trip.departure_time := v_departure_time v;
     Trip.available_seats := v_available_seats v;
     Trip.price_per_seat := v_price_per_seat v;
     Trip.status := v_trip_status v; Trip.description := v_description v |}.

Definition set_driver_locations (l : list Loc.LocationRow) (d : Db) : Db :=
  {| driver_locations := l; passenger_locations := passenger_locations d;
     bookings := bookings d; trips := trips d |}.
Definition set_passenger_locations (l : list Loc.LocationRow) (d : Db) : Db :=
  {| driver_locations := driver_locations d; passenger_locations := l;
     bookings := bookings d; trips := trips d |}.
Definition set_bookings (l : list Booking.Booking) (d : Db) : Db :=
  {| driver_locations := driver_locations d;
     passenger_locations := passenger_locations d;
     bookings := l; trips := trips d |}.
Definition set_trips (l : list Trip.Trip) (d : Db) : Db :=
  {| driver_locations := driver_locations d;
     passenger_locations := passenger_locations d;
     bookings := bookings d; trips := l |}.

Definition location_rows (t : location_table) (d : Db) : list Loc.LocationRow :=
  match t with
  | driver_locations_t => driver_locations d
  | passenger_locations_t => passenger_locations d
  end.
Definition set_location_rows (t : location_table) (l : list Loc.LocationRow) (d : Db) : Db :=
  match t with
  | driver_locations_t => set_driver_locations l d
  | passenger_locations_t => set_passenger_locations l d
  end.


Definition not_null : string := "null value violates not-null constraint".
Definition no_conflict_target : string :=
  "there is no unique or exclusion constraint matching the ON CONFLICT specification".

(** An accepted request, run on the tables.  [None]: the request cannot
    be run at all.  The actor column is [NOT NULL]; and [driver_locations]
    is created with no unique constraint on [driver_id] (the first
    migration, lines 66-75), so the database has nothing to match
    [ON CONFLICT (driver_id)] against and refuses every such statement. *)
Definition run_request (q : request) (st : stamp) (d : Db) : option Db :=
  match q with
  | InsertLocation t v =>
      a ← v_actor_id v;
      Some (set_location_rows t (location_rows t d ++ [new_location st a v]) d)
  | UpsertDriverLocation _ => None
  | InsertBooking v => Some (set_bookings (bookings d ++ [new_booking st v]) d)
  | UpdateBookingStatus bookingId s =>
      Some (set_bookings
              ((λ b, if decide (Booking.id b = bookingId)
                     then Booking.with_status s (now st) b else b) <$> bookings d) d)
  | InsertTrip v => Some (set_trips (trips d ++ [new_trip st v]) d)
  | Select _ => Some d
  | InvokeFunction _ _ _ => Some d
  end.

(** The message of the database for a request it cannot run. *)
Definition refusal (q : request) : string :=
  match q with
  | UpsertDriverLocation _ => no_conflict_target
  | _ => not_null
  end.

(** The tables after the request and the [error] of the response. *)
Definition exec (q : request) (r : reply) (d : Db) : Db * option string :=
  match r with
  | Rejects m => (d, Some m)
  | Accepts st =>
      match run_request q st d with
      | Some d' => (d', None)
      | None => (d, Some (refusal q))
      end
  end.

End Store.

(* ================================================================== *)
(** * Handlers as computations                                         *)
(* ================================================================== *)

Module Fx.

(** What a handler does that is seen from outside, in program order. *)
Inductive event :=
  | toast_error (msg : string)
  | toast_success (msg : string)
  | console_error (label : string)
  | console_warn (label : string)
  | navigate (path : string)
  | Request (q : Store.request).

#[global] Instance LocationValues_eq_dec : EqDecision Store.LocationValues.
Proof. solve_decision. Defined.
#[global] Instance BookingValues_eq_dec : EqDecision Store.BookingValues.
Proof. solve_decision. Defined.
#[global] Instance TripValues_eq_dec : EqDecision Store.TripValues.
Proof. solve_decision. Defined.
#[global] Instance location_table_eq_dec : EqDecision Store.location_table.
Proof. solve_decision. Defined.
#[global] Instance request_eq_dec : EqDecision Store.request.
Proof. solve_decision. Defined.
#[global] Instance event_eq_dec : EqDecision event.
Proof. solve_decision. Defined.

(** A handler either returns or throws (the message of the error). *)
Inductive completion (A : Type) : Type :=
  | Returned (a : A)
  | Thrown (message : string).
Arguments Returned {A} a.
Arguments Thrown {A} message.

Record run (S A : Type) : Type := Run {
  final : S;
  trace : list event;
  outcome : completion A
}.
Arguments Run {S A} final trace outcome.
Arguments final {S A} r.
Arguments trace {S A} r.
Arguments outcome {S A} r.

Definition M (S A : Type) : Type := S → run S A.

Section ops.
Context {S : Type}.

Definition ret {A} (a : A) : M S A := λ s, Run s [] (Returned a).

Definition bind {A B} (m : M S A) (k : A → M S B) : M S B := λ s,
  let r := m s in
  match outcome r with
  | Returned a =>
      let r' := k a (final r) in
      Run (final r') (trace r ++ trace r') (outcome r')
  | Thrown e => Run (final r) (trace r) (Thrown e)
  end.

Definition throw {A} (e : string) : M S A := λ s, Run s [] (Thrown e).

(** [try { body } catch (e) { handler e }]. *)
Definition try_catch {A} (body : M S A) (handler : string → M S A) : M S A := λ s,
  let r := body s in
  match outcome r with
  | Returned _ => r
  | Thrown e =>
      let r' := handler e (final r) in
      Run (final r') (trace r ++ trace r') (outcome r')
  end.

(** [try { body } finally { fin }]. *)
Definition try_finally {A} (body : M S A) (fin : M S unit) : M S A := λ s,
  let r := body s in
  let r' := fin (final r) in
  Run (final r') (trace r ++ trace r')
      (match outcome r' with
       | Thrown e => Thrown e
       | Returned _ => outcome r
       end).

Definition emit (e : event) : M S unit := λ s, Run s [e] (Returned tt).
Definition get : M S S := λ s, Run s [] (Returned s).
Definition modify (f : S → S) : M S unit := λ s, Run (f s) [] (Returned tt).

End ops.

#[global] Instance M_ret {S} : MRet (M S) := @ret S.
#[global] Instance M_bind {S} : MBind (M S) := λ A B k m, bind m k.

(** [e.message || fallback]. *)
Definition message_or (e fallback : string) : string :=
  if decide (e = "") then fallback else e.

(** A state that holds the tables: [send] passes a request to the
    backend and hands back the [error] of the response. *)
Class HasDb (S : Type) := {
  get_db : S → Store.Db;
  put_db : Store.Db → S → S
}.

Definition send {S} `{HasDb S} (q : Store.request) (r : Store.reply)
  : M S (option string) := λ s,
  let '(d, err) := Store.exec q r (get_db s) in
  Run (put_db d s) [Request q] (Returned err).

(** The requests made along a trace, in order. *)
Definition requests (tr : list event) : list Store.request :=
  omap (λ e, match e with Request q => Some q | _ => None end) tr.

End Fx.

(* ================================================================== *)
(** * The dashboards: location sharing and booking decisions           *)
(* ================================================================== *)

(** State shared by the three dashboard pages: the tables, the browser's
    geolocation watches, the global [window.locationWatchId], and the
    React state of the page. *)
Module Page.
Import Fx.

(** The success callback a watch was registered with (the closure
    [updateLocation] and the actor id it captured). *)
Inductive callback :=
  | upsert_driver (profile_user_id : option string)   (* pages/DriverDashboard.tsx *)
  | insert_driver (user_id : option string)           (* part_002 *)
  | insert_passenger (user_id : option string).       (* part_003 *)

Record GeolocationPosition := {
  coords_latitude : Z;
  coords_longitude : Z;
  coords_heading : option Z;
  coords_speed : option Z
}.

(** [navigator.geolocation] present or not, and [window.isSecureContext]. *)
Record Browser := {
  geolocation : bool;
  isSecureContext : bool
}.

Record Page := {
  db : Store.Db;
  watches : list (Z * callback);
  next_watch : Z;
  locationWatchId : option Z;
  isSharing : bool;
  updatingBookingId : option string
}.

Definition set_db (d : Store.Db) (p : Page) : Page :=
  {| db := d; watches := watches p; next_watch := next_watch p;
     locationWatchId := locationWatchId p; isSharing := isSharing p;
     updatingBookingId := updatingBookingId p |}.
Definition set_watches (w : list (Z * callback)) (n : Z) (p : Page) : Page :=
  {| db := db p; watches := w; next_watch := n;
     locationWatchId := locationWatchId p; isSharing := isSharing p;
     updatingBookingId := updatingBookingId p |}.
Definition set_locationWatchId (h : option Z) (p : Page) : Page :=
  {| db := db p; watches := watches p; next_watch := next_watch p;
     locationWatchId := h; isSharing := isSharing p;
     updatingBookingId := updatingBookingId p |}.
Definition set_isSharing (b : bool) (p : Page) : Page :=
  {| db := db p; watches := watches p; next_watch := next_watch p;
     locationWatchId := locationWatchId p; isSharing := b;
     updatingBookingId := updatingBookingId p |}.
Definition set_updatingBookingId (b : option string) (p : Page) : Page :=
  {| db := db p; watches := watches p; next_watch := next_watch p;
     locationWatchId := locationWatchId p; isSharing := isSharing p;
     updatingBookingId := b |}.

#[global] Instance Page_HasDb : HasDb Page := {| get_db := db; put_db := set_db |}.

Definition setIsSharing (b : bool) : M Page unit := modify (set_isSharing b).
Definition setUpdatingBookingId (b : option string) : M Page unit :=
  modify (set_updatingBookingId b).

(** [navigator.geolocation.watchPosition(success, error, options)]:
    registers the watch and returns its id. *)
Definition watchPosition (cb : callback) : M Page Z := λ p,
  Run (set_watches (watches p ++ [(next_watch p, cb)]) (next_watch p + 1) p)
      [] (Returned (next_watch p)).

(** [navigator.geolocation.clearWatch(id)]: a no-op on an unknown id. *)
Definition clearWatch (id : Z) : M Page unit :=
  modify (λ p, set_watches (filter (λ w, w.1 ≠ id) (watches p)) (next_watch p) p).

(** Truthiness of [user?.id]. *)
Definition truthy_id (u : option string) : bool :=
  match u with
  | Some s => bool_decide (s ≠ "")
  | None => false
  end.

Definition values_of (a : option string) (position : GeolocationPosition)
  : Store.LocationValues :=
  {| Store.v_actor_id := a; Store.v_trip_id := None;
     Store.v_latitude := coords_latitude position;
     Store.v_longitude := coords_longitude position;
     Store.v_heading := coords_heading position;
     Store.v_speed := coords_speed position |}.

(** The error callback handed to [watchPosition] (the same in the three
    pages). *)
Definition onGeolocationError : M Page unit :=
  emit (console_error "Geolocation error:") ;;
  emit (toast_error "Failed to get location") ;;
  setIsSharing false.

(** [stopLocationSharing] (the same in the three pages); the stored watch
    id is a number, falsy at [0]. *)
Definition stopLocationSharing : M Page unit :=
  p ← get;
  match locationWatchId p with
  | Some watchId =>
      if decide (watchId ≠ 0)
      then clearWatch watchId ;; modify (set_locationWatchId None)
      else ret tt
  | None => ret tt
  end ;;
  setIsSharing false ;;
  emit (toast_success "Location sharing stopped").

End Page.

(** ** [src/pages/DriverDashboard.tsx] *)
Module DriverDashboard.
Import Fx Page.

Definition updateLocation (profile_user_id : option string)
    (position : GeolocationPosition) (r : Store.reply) : M Page unit :=
  send (Store.UpsertDriverLocation (values_of profile_user_id position)) r ;;
  ret tt.

Definition startLocationSharing (nav : Browser) (profile_user_id : option string)
  : M Page unit :=
  if negb (geolocation nav)
  then emit (toast_error "Geolocation is not supported by this browser")
  else
    setIsSharing true ;;
    watchId ← watchPosition (upsert_driver profile_user_id);
    emit (toast_success "Location sharing started") ;;
    modify (set_locationWatchId (Some watchId)).

Definition updateBookingStatus (bookingId : string) (status : booking_status.t)
    (r : Store.reply) : M Page unit :=
  error ← send (Store.UpdateBookingStatus bookingId status) r;
  match error with
  | Some _ => emit (toast_error "Failed to update booking")
  | None =>
      emit (toast_success ("Booking " +:+ booking_status.text status +:+ "!")) ;;
      emit (Request (Store.Select "bookings"))          (* fetchBookings() *)
  end.

End DriverDashboard.

(** ** [src/unnamed/part_002]: the driver dashboard with insert-only
    sharing and e-mail notification *)
Module DriverDashboard002.
Import Fx Page.

Definition updateLocation (user_id : option string)
    (position : GeolocationPosition) (r : Store.reply) : M Page unit :=
  try_catch
    (error ← send (Store.InsertLocation Store.driver_locations_t
                     (values_of user_id position)) r;
     match error with
     | Some e => throw e
     | None => ret tt
     end)
    (λ err,
       emit (console_error "Failed to update location:") ;;
       emit (toast_error "Failed to update location") ;;
       setIsSharing false).

Definition startLocationSharing (nav : Browser) (user_id : option string)
  : M Page unit :=
  if negb (geolocation nav)
  then emit (toast_error "Geolocation is not supported by this browser")
  else if negb (isSecureContext nav)
  then emit (toast_error
               "Location sharing requires HTTPS. Please use a secure connection.")
  else if negb (truthy_id user_id)
  then emit (toast_error "Please sign in as a driver to share location")
  else
    setIsSharing true ;;
    watchId ← watchPosition (insert_driver user_id);
    emit (toast_success "Location sharing started") ;;
    modify (set_locationWatchId (Some watchId)).

(** [status === 'accepted' ? 'booking_accepted' : 'booking_rejected']. *)
Definition notification_type (status : booking_status.t) : string :=
  if decide (status = booking_status.accepted)
  then "booking_accepted" else "booking_rejected".

Definition updateBookingStatus (bookingId : string) (status : booking_status.t)
    (r : Store.reply) : M Page unit :=
  try_finally
    (try_catch
       (setUpdatingBookingId (Some bookingId) ;;
        error ← send (Store.UpdateBookingStatus bookingId status) r;
        match error with
        | Some e => throw e
        | None =>
            emit (toast_success ("Booking " +:+ booking_status.text status +:+ "!")) ;;
            emit (Request (Store.InvokeFunction "send-booking-notification"
                             bookingId (notification_type status))) ;;
            emit (Request (Store.Select "bookings"))     (* fetchBookings() *)
        end)
       (λ e,
          emit (console_error "Booking update error:") ;;
          emit (toast_error "Failed to update booking")))
    (setUpdatingBookingId None).

(** The [.then] callback of the invocation, run when the edge function
    has answered ([fnError] is its error, if any). *)
Definition notification_settled (fnError : option string) : M Page unit :=
  match fnError with
  | Some _ => emit (console_warn "Notification function error")
  | None => ret tt
  end.

End DriverDashboard002.

(** ** [src/unnamed/part_003]: the passenger dashboard *)
Module PassengerDashboard.
Import Fx Page.

Definition updateLocation (user_id : option string)
    (position : GeolocationPosition) (r : Store.reply) : M Page unit :=
  try_catch
    (error ← send (Store.InsertLocation Store.passenger_locations_t
                     (values_of user_id position)) r;
     match error with
     | Some e => throw e
     | None => ret tt
     end)
    (λ err,
       emit (console_error "Failed to update location:") ;;
       emit (toast_error "Failed to update location") ;;
       setIsSharing false).

Definition startLocationSharing (nav : Browser) (user_id : option string)
  : M Page unit :=
  if negb (geolocation nav)
  then emit (toast_error "Geolocation is not supported by this browser")
  else if negb (isSecureContext nav)
  then emit (toast_error
               "Location sharing requires HTTPS. Please use a secure connection.")
  else if negb (truthy_id user_id)
  then emit (toast_error "Please sign in to share location")
  else
    setIsSharing true ;;
    watchId ← watchPosition (insert_passenger user_id);
    emit (toast_success "Location sharing started") ;;
    modify (set_locationWatchId (Some watchId)).

End PassengerDashboard.

(** The device reporting a position to a watch: the callback the watch
    was registered with runs, if the watch is still there. *)
Module Device.
Import Fx Page.

Definition success_callback (cb : callback) (position : GeolocationPosition)
    (r : Store.reply) : M Page unit :=
  match cb with
  | upsert_driver u => DriverDashboard.updateLocation u position r
  | insert_driver u => DriverDashboard002.updateLocation u position r
  | insert_passenger u => PassengerDashboard.updateLocation u position r
  end.

Definition callback_of (watchId : Z) (p : Page) : option callback :=
  match list_find (λ w : Z * callback, w.1 = watchId) (watches p) with
  | Some (_, w) => Some w.2
  | None => None
  end.

Definition report (watchId : Z) (position : GeolocationPosition)
    (r : Store.reply) : M Page unit :=
  p ← get;
  match callback_of watchId p with
  | Some cb => success_callback cb position r
  | None => ret tt
  end.

End Device.

(* ================================================================== *)
(** * Booking a trip: [src/pages/TripDetails.tsx]                      *)
(* ================================================================== *)

Module TripDetails.
Import Fx.

Record BookingForm := {
  seats : Z;
  message : string
}.

Record State := {
  db : Store.Db;
  trip : option Trip.Trip;
  bookingForm : BookingForm;
  showBookingForm : bool;
  existingBooking : option Booking.Booking;
  bookingLoading : bool
}.

Definition set_db (d : Store.Db) (s : State) : State :=
  {| db := d; trip := trip s; bookingForm := bookingForm s;
     showBookingForm := showBookingForm s; existingBooking := existingBooking s;
     bookingLoading := bookingLoading s |}.
Definition set_bookingForm (f : BookingForm) (s : State) : State :=
  {| db := db s; trip := trip s; bookingForm := f;
     showBookingForm := showBookingForm s; existingBooking := existingBooking s;
     bookingLoading := bookingLoading s |}.
Definition set_showBookingForm (b : bool) (s : State) : State :=
  {| db := db s; trip := trip s; bookingForm := bookingForm s;
     showBookingForm := b; existingBooking := existingBooking s;
     bookingLoading := bookingLoading s |}.
Definition set_existingBooking (b : option Booking.Booking) (s : State) : State :=
  {| db := db s; trip := trip s; bookingForm := bookingForm s;
     showBookingForm := showBookingForm s; existingBooking := b;
     bookingLoading := bookingLoading s |}.
Definition set_bookingLoading (b : bool) (s : State) : State :=
  {| db := db s; trip := trip s; bookingForm := bookingForm s;
     showBookingForm := showBookingForm s; existingBooking := existingBooking s;
     bookingLoading := b |}.

#[global] Instance State_HasDb : HasDb State := {| get_db := db; put_db := set_db |}.

(** [s || null]. *)
Definition or_null (s : string) : option string :=
  if decide (s = "") then None else Some s.

Definition booking_values (t : Trip.Trip) (user_id : string) (f : BookingForm)
  : Store.BookingValues :=
  {| Store.v_booking_trip := Trip.id t; Store.v_passenger_id := user_id;
     Store.v_seats_requested := seats f; Store.v_message := or_null (message f);
     Store.v_booking_status := booking_status.pending |}.

(** The placeholder shown until the next fetch. *)
Definition temp_booking (t : Trip.Trip) (user_id : string) (f : BookingForm)
    (client_now : Z) : Booking.Booking :=
  {| Booking.id := "temp"; Booking.trip_id := Trip.id t;
     Booking.passenger_id := user_id; Booking.seats_requested := seats f;
     Booking.status := booking_status.pending;
     Booking.message := or_null (message f);
     Booking.created_at := client_now; Booking.updated_at := client_now |}.

(** [canBook]: whether the booking form is rendered at all. *)
Definition canBook (user : option string) (s : State) (t : Trip.Trip) : bool :=
  match user with
  | Some user_id =>
      negb (bool_decide (user_id = Trip.driver_id t))
      && bool_decide (Trip.status t = trip_status.scheduled)
      && bool_decide (0 < Trip.available_seats t)
      && negb (bool_decide (is_Some (existingBooking s)))
  | None => false
  end.

(** [user] is the id of the signed-in user, [None] when nobody is. *)
Definition handleBookingSubmit (user : option string) (client_now : Z)
    (r : Store.reply) : M State unit :=
  s ← get;
  match user, trip s with
  | Some user_id, Some t =>
      if decide (Trip.driver_id t = user_id)
      then emit (toast_error "You can't book your own trip")
      else if decide (Trip.available_seats t < seats (bookingForm s))
      then emit (toast_error "Not enough seats available")
      else
        modify (set_bookingLoading true) ;;
        try_finally
          (try_catch
             (error ← send (Store.InsertBooking
                              (booking_values t user_id (bookingForm s))) r;
              match error with
              | Some e => throw e
              | None =>
                  emit (toast_success "Booking request sent successfully!") ;;
                  modify (set_showBookingForm false) ;;
                  modify (set_bookingForm {| seats := 1; message := "" |}) ;;
                  modify (set_existingBooking
                            (Some (temp_booking t user_id (bookingForm s) client_now)))
              end)
             (λ e, emit (toast_error (message_or e "Failed to send booking request"))))
          (modify (set_bookingLoading false))
  | _, _ => emit (toast_error "You must be logged in to book a trip")
  end.

End TripDetails.

(* ================================================================== *)
(** * Posting a trip: [src/unnamed/part_000]                           *)
(* ================================================================== *)

Module CreateTrip.
Import Fx.

Record FormData := {
  startLocation : string;
  destination : string;
  departureDate : string;
  departureTime : string;
  availableSeats : Z;
  pricePerSeat : string;
  description : string
}.

Record State := {
  db : Store.Db;
  loading : bool
}.

Definition set_db (d : Store.Db) (s : State) : State :=
  {| db := d; loading := loading s |}.
Definition setLoading (b : bool) : M State unit :=
  modify (λ s, {| db := db s; loading := b |}).

#[global] Instance State_HasDb : HasDb State := {| get_db := db; put_db := set_db |}.

Section handlers.

(** The browser's [new Date(string)] ([None]: an invalid date) and
    [parseFloat] ([None]: [NaN], sent as [null]). *)
Variable Date_parse : string → option Z.
Variable parseFloat : string → option Z.

Definition tripData (user_id : string) (formData : FormData) (departure : Z)
  : Store.TripValues :=
  {| Store.v_driver_id := user_id;
     Store.v_start_location := startLocation formData;
     Store.v_destination := destination formData;
     Store.v_departure_time := departure;
     Store.v_available_seats := availableSeats formData;
     Store.v_price_per_seat :=
       if decide (pricePerSeat formData = "") then None
       else parseFloat (pricePerSeat formData);
     Store.v_description := TripDetails.or_null (description formData);
     Store.v_trip_status := trip_status.scheduled |}.

(** [profile] is the [user_id] of the signed-in profile.  An invalid date
    is not [<=] the current time; [toISOString] throws on it. *)
Definition handleSubmit (profile : option string) (formData : FormData)
    (client_now : Z) (r : Store.reply) : M State unit :=
  match profile with
  | None => emit (toast_error "You must be logged in to create a trip")
  | Some user_id =>
      setLoading true ;;
      try_finally
        (try_catch
           (match Date_parse (departureDate formData +:+ "T" +:+ departureTime formData) with
            | Some departureDateTime =>
                if decide (departureDateTime ≤ client_now)
                then emit (toast_error "Departure time must be in the future") ;;
                     setLoading false
                else
                  error ← send (Store.InsertTrip
                                  (tripData user_id formData departureDateTime)) r;
                  match error with
                  | Some e => throw e
                  | None =>
                      emit (toast_success "Trip created successfully!") ;;
                      emit (navigate "/driver-dashboard")
                  end
            | None => throw "Invalid time value"
            end)
           (λ e, emit (toast_error (message_or e "Failed to create trip"))))
        (setLoading false)
  end.

End handlers.

End CreateTrip.

(* ================================================================== *)
(** * The live map                                                     *)
(* ================================================================== *)

Module Presenter.
Import Fx.

Definition LatLng : Type := Z * Z.

(** What the Leaflet map was last told to show. *)
Inductive viewport :=
  | View (center : LatLng) (zoom : Z)
  | Bounds (corner1 corner2 : LatLng) (padding : Z * Z) (maxZoom : Z).

(** How the map widget takes the next call. *)
Inductive widget := takes_call | throws (message : string).

Record State := {
  channels : list (Z * string);          (* realtime channels of the client *)
  next_channel : Z;
  driverLocations : list Loc.LocationRow;
  passengerLocations : list Loc.LocationRow;
  userPosition : option LatLng;
  mapRef : bool;                         (* [mapRef.current] is set *)
  shown : option viewport;
  timers : list (LatLng * LatLng)        (* pending [setTimeout] callbacks *)
}.

Definition set_channels (c : list (Z * string)) (n : Z) (s : State) : State :=
  {| channels := c; next_channel := n; driverLocations := driverLocations s;
     passengerLocations := passengerLocations s; userPosition := userPosition s;
     mapRef := mapRef s; shown := shown s; timers := timers s |}.
Definition set_shown (v : option viewport) (s : State) : State :=
  {| channels := channels s; next_channel := next_channel s;
     driverLocations := driverLocations s;
     passengerLocations := passengerLocations s; userPosition := userPosition s;
     mapRef := mapRef s; shown := v; timers := timers s |}.
Definition set_timers (t : list (LatLng * LatLng)) (s : State) : State :=
  {| channels := channels s; next_channel := next_channel s;
     driverLocations := driverLocations s;
     passengerLocations := passengerLocations s; userPosition := userPosition s;
     mapRef := mapRef s; shown := shown s; timers := t |}.

(** The rows drawn as markers. *)
Definition markers (s : State) : list Loc.LocationRow * list Loc.LocationRow :=
  (driverLocations s, passengerLocations s).

(** [supabase.channel(topic).on(...).subscribe()] and
    [supabase.removeChannel(c)]. *)
Definition subscribe (topic : string) : M State Z := λ s,
  Run (set_channels (channels s ++ [(next_channel s, topic)]) (next_channel s + 1) s)
      [] (Returned (next_channel s)).
Definition removeChannel (c : Z) : M State unit :=
  modify (λ s, set_channels (filter (λ x, x.1 ≠ c) (channels s)) (next_channel s) s).

Record Subscriptions := {
  driverSub : Z;
  passengerSub : Z
}.

(** The subscription effect of [EnhancedMapComponent] (part_004, lines
    130-159): its body, returning the cleanup's captured channels ... *)
Definition subscription_effect (showDrivers : bool) : M State (option Subscriptions) :=
  if showDrivers
  then
    emit (Request (Store.Select "driver_locations")) ;;
    emit (Request (Store.Select "passenger_locations")) ;;
    emit (Request (Store.Select "trips")) ;;
    emit (Request (Store.Select "profiles")) ;;
    d ← subscribe "driver_locations";
    p ← subscribe "passenger_locations";
    mret (Some {| driverSub := d; passengerSub := p |})
  else mret None.

(** ... and the cleanup it returns. *)
Definition cleanup (subs : Subscriptions) : M State unit :=
  removeChannel (driverSub subs) ;;
  removeChannel (passengerSub subs).

(** Calls into the map widget. *)
Definition setView (w : widget) (center : LatLng) (zoom : Z) : M State unit :=
  match w with
  | takes_call => modify (set_shown (Some (View center zoom)))
  | throws e => throw e
  end.
Definition fitBounds (w : widget) (b : LatLng * LatLng) (padding : Z * Z)
    (maxZoom : Z) : M State unit :=
  match w with
  | takes_call => modify (set_shown (Some (Bounds b.1 b.2 padding maxZoom)))
  | throws e => throw e
  end.

(** A coordinate of the selected trip, as [&&] sees it: set and not [0]. *)
Definition truthy (x : option Z) : option Z :=
  match x with
  | Some z => if decide (z = 0) then None else Some z
  | None => None
  end.

Definition endpoints (t : Trip.Trip) : option (LatLng * LatLng) :=
  a ← truthy (Trip.start_lat t);
  b ← truthy (Trip.start_lng t);
  c ← truthy (Trip.dest_lat t);
  d ← truthy (Trip.dest_lng t);
  Some ((a, b), (c, d)).

(** The centering effect of [MapComponent] (lines 97-103) and of the
    first [EnhancedMapComponent] (lines 164-172). *)
Definition center_effect (w : widget) : M State unit :=
  s ← get;
  match userPosition s with
  | Some pos =>
      if mapRef s
      then try_catch (setView w pos 15) (λ _, ret tt)
      else ret tt
  | None => ret tt
  end.

(** The viewport effect of [EnhancedMapComponent] in part_004 (lines
    187-216); the bounds are fitted from a timer. *)
Definition viewport_effect (selectedTrip : option Trip.Trip) (w : widget)
  : M State unit :=
  s ← get;
  if negb (mapRef s) then ret tt
  else
    try_catch
      (match selectedTrip with
       | Some t =>
           match endpoints t with
           | Some bounds => modify (λ s, set_timers (timers s ++ [bounds]) s)
           | None => ret tt
           end
       | None =>
           match userPosition s with
           | Some pos => setView w pos 15
           | None => ret tt
           end
       end)
      (λ _, emit (console_warn "Map update error:")).

(** The timer's callback; [mapRef.current] may be gone by then, and the
    call on [null] throws. *)
Definition fitBounds_timer (bounds : LatLng * LatLng) (w : widget) : M State unit :=
  try_catch
    (s ← get;
     if mapRef s
     then fitBounds w bounds (50, 50) 15
     else throw "Cannot read properties of null")
    (λ _, emit (console_warn "Map bounds error:")).

(** A pending timer firing. *)
Definition run_timer (w : widget) : M State unit :=
  s ← get;
  match timers s with
  | bounds :: rest => modify (set_timers rest) ;; fitBounds_timer bounds w
  | [] => ret tt
  end.

End Presenter.

(* ================================================================== *)
(** * Concrete runs                                                    *)
(* ================================================================== *)

(** The inputs the evaluations below are made at. *)
Module Scenario.
Import Fx Page.

Definition empty_db : Store.Db :=
  {| Store.driver_locations := []; Store.passenger_locations := [];
     Store.bookings := []; Store.trips := [] |}.

Definition fresh_page : Page :=
  {| db := empty_db; watches := []; next_watch := 1; locationWatchId := None;
     isSharing := false; updatingBookingId := None |}.

Definition https : Browser := {| geolocation := true; isSecureContext := true |}.
Definition http : Browser := {| geolocation := true; isSecureContext := false |}.

Definition here : GeolocationPosition :=
  {| coords_latitude := 10; coords_longitude := 77;
     coords_heading := None; coords_speed := Some 4 |}.
Definition there : GeolocationPosition :=
  {| coords_latitude := 20; coords_longitude := 78;
     coords_heading := Some 90; coords_speed := Some 5 |}.

Definition stamp1 : Store.stamp := {| Store.gen_id := "row-1"; Store.now := 1000000 |}.
Definition stamp2 : Store.stamp := {| Store.gen_id := "row-2"; Store.now := 2000000 |}.
Definition denied : Store.reply :=
  Store.Rejects "new row violates row-level security policy".

(** Sharing starts, the store refuses the first sample, the device
    reports a second position. *)
Definition refused_then_next : M Page unit :=
  DriverDashboard002.startLocationSharing https (Some "driver-1") ;;
  Device.report 1 here denied ;;
  Device.report 1 there (Store.Accepts stamp2).

(** Sharing started from [src/pages/DriverDashboard.tsx] on a page served
    over plain HTTP. *)
Definition insecure_start : M Page unit :=
  DriverDashboard.startLocationSharing http (Some "driver-1").

(** Sharing started from the dashboard of part_002 and a first position
    stored. *)
Definition one_insert : M Page unit :=
  DriverDashboard002.startLocationSharing https (Some "driver-1") ;;
  Device.report 1 here (Store.Accepts stamp1).
Definition page_after_one_insert : Page := final (one_insert fresh_page).

(** Sharing is started, the store refuses the first sample (which clears
    [isSharing]), sharing is started again, and the page is torn down
    twice. *)
Definition teardown_after_restart : M Page unit :=
  DriverDashboard002.startLocationSharing https (Some "driver-1") ;;
  Device.report 1 here denied ;;
  DriverDashboard002.startLocationSharing https (Some "driver-1") ;;
  stopLocationSharing ;;
  stopLocationSharing.

Definition booking1 : Booking.Booking :=
  {| Booking.id := "booking-1"; Booking.trip_id := "trip-1";
     Booking.passenger_id := "passenger-1"; Booking.seats_requested := 2;
     Booking.status := booking_status.pending; Booking.message := None;
     Booking.created_at := 500000; Booking.updated_at := 500000 |}.

Definition page_with_booking : Page :=
  set_db (Store.set_bookings [booking1] empty_db) fresh_page.

Definition tripAB : Trip.Trip :=
  {| Trip.id := "trip-1"; Trip.driver_id := "driver-1";
     Trip.start_location := "A"; Trip.destination := "B";
     Trip.start_lat := Some 10; Trip.start_lng := Some 77;
     Trip.dest_lat := Some 20; Trip.dest_lng := Some 78;
     Trip.departure_time := 9000000; Trip.available_seats := 3;
     Trip.price_per_seat := None; Trip.status := trip_status.scheduled;
     Trip.description := None |}.

Definition details (seats : Z) : TripDetails.State :=
  {| TripDetails.db := Store.set_trips [tripAB] empty_db;
     TripDetails.trip := Some tripAB;
     TripDetails.bookingForm := {| TripDetails.seats := seats; TripDetails.message := "" |};
     TripDetails.showBookingForm := true;
     TripDetails.existingBooking := None;
     TripDetails.bookingLoading := false |}.

Definition row (i a : string) (lat t : Z) : Loc.LocationRow :=
  {| Loc.id := i; Loc.actor_id := a; Loc.trip_id := None;
     Loc.latitude := lat; Loc.longitude := 0;
     Loc.heading := None; Loc.speed := None; Loc.updated_at := t |}.

(** Actor D at t=1 (lat 10) and t=2 (lat 20), in milliseconds, and
    another actor; as stored, and latest first. *)
Definition samples : list Loc.LocationRow :=
  [row "1" "D" 10 1000; row "2" "E" 30 1000; row "3" "D" 20 2000].
Definition samples_desc : list Loc.LocationRow :=
  [row "3" "D" 20 2000; row "2" "E" 30 1000; row "1" "D" 10 1000].

Definition map_state : Presenter.State :=
  {| Presenter.channels := []; Presenter.next_channel := 1;
     Presenter.driverLocations := [row "3" "D" 20 2000];
     Presenter.passengerLocations := [];
     Presenter.userPosition := Some (10, 77);
     Presenter.mapRef := true; Presenter.shown := None; Presenter.timers := [] |}.

(** The map after its subscription effect ran, and the channels its
    cleanup captured. *)
Definition subscribed_map : Presenter.State :=
  final (Presenter.subscription_effect true map_state).
Definition subs : Presenter.Subscriptions :=
  {| Presenter.driverSub := 1; Presenter.passengerSub := 2 |}.

(** The dashboard of part_002 while sharing. *)
Definition sharing_page : Page :=
  final (DriverDashboard002.startLocationSharing https (Some "driver-1") fresh_page).

Definition form : CreateTrip.FormData :=
  {| CreateTrip.startLocation := "A"; CreateTrip.destination := "B";
     CreateTrip.departureDate := "2030-01-01"; CreateTrip.departureTime := "10:00";
     CreateTrip.availableSeats := 3; CreateTrip.pricePerSeat := "";
     CreateTrip.description := "" |}.

Definition trip_page : CreateTrip.State :=
  {| CreateTrip.db := empty_db; CreateTrip.loading := false |}.

End Scenario.

(* ================================================================== *)
(** * The Share Location button                                        *)
(* ================================================================== *)

(** The button of the three dashboards and what the browser does with
    the watches they register, as inputs to one page. *)
Module ShareButton.
Import Fx Page.

(** The dashboard that is mounted. *)
Inductive dashboard :=
  | driver_pages       (* src/pages/DriverDashboard.tsx *)
  | driver_002         (* part_002 *)
  | passenger_003.     (* part_003 *)

Definition startLocationSharing (d : dashboard) (nav : Browser)
    (user_id : option string) : M Page unit :=
  match d with
  | driver_pages => DriverDashboard.startLocationSharing nav user_id
  | driver_002 => DriverDashboard002.startLocationSharing nav user_id
  | passenger_003 => PassengerDashboard.startLocationSharing nav user_id
  end.

(** The checks a start has to get through, in the order they are made. *)
Definition guards_pass (d : dashboard) (nav : Browser) (user_id : option string)
  : bool :=
  match d with
  | driver_pages => geolocation nav
  | driver_002 | passenger_003 =>
      geolocation nav && isSecureContext nav && truthy_id user_id
  end.

(** The callback the watch of that dashboard is registered with. *)
Definition callback_for (d : dashboard) (user_id : option string) : callback :=
  match d with
  | driver_pages => upsert_driver user_id
  | driver_002 => insert_driver user_id
  | passenger_003 => insert_passenger user_id
  end.

(** [onClick={isSharing ? stopLocationSharing : startLocationSharing}]. *)
Definition onClick (d : dashboard) (nav : Browser) (user_id : option string)
  : M Page unit :=
  p ← get;
  if isSharing p then stopLocationSharing
  else startLocationSharing d nav user_id.

(** The browser calling the error callback of a watch that is
    registered. *)
Definition report_error (watchId : Z) : M Page unit :=
  p ← get;
  match Device.callback_of watchId p with
  | Some _ => onGeolocationError
  | None => ret tt
  end.

Inductive input :=
  | click (nav : Browser) (user_id : option string)
  | position (watchId : Z) (at_ : GeolocationPosition) (r : Store.reply)
  | position_error (watchId : Z).

Definition handle (d : dashboard) (i : input) : M Page unit :=
  match i with
  | click nav user_id => onClick d nav user_id
  | position watchId at_ r => Device.report watchId at_ r
  | position_error watchId => report_error watchId
  end.

(** The page after a sequence of inputs. *)
Definition run (d : dashboard) (inputs : list input) (p : Page) : Page :=
  foldl (λ p i, final (handle d i p)) p inputs.

(** What holds of a page however it got there: watch ids are positive,
    distinct and below the next one, and while the page shows sharing as
    on, the id kept in [window.locationWatchId] is that of a registered
    watch. *)
Record consistent (p : Page) : Prop := {
  next_positive : 0 < next_watch p;
  ids_bounded : ∀ w, w ∈ (watches p).*1 → 0 < w < next_watch p;
  ids_distinct : NoDup (watches p).*1;
  stored_positive : ∀ w, locationWatchId p = Some w → 0 < w;
  sharing_has_watch :
    isSharing p = true → ∃ w, locationWatchId p = Some w ∧ w ∈ (watches p).*1
}.

(** The same sequence as one computation, with its trace. *)
Fixpoint session (d : dashboard) (inputs : list input) : M Page unit :=
  match inputs with
  | [] => ret tt
  | i :: inputs => handle d i ;; session d inputs
  end.

(** A callback that writes under a user id that is set. *)
Definition signed (cb : callback) : Prop :=
  match cb with
  | insert_driver u | insert_passenger u => truthy_id u = true
  | upsert_driver _ => False
  end.

(** A request that inserts a location row under a user id that is set. *)
Definition signed_insert (q : Store.request) : Prop :=
  match q with
  | Store.InsertLocation _ v => truthy_id (Store.v_actor_id v) = true
  | _ => False
  end.

Definition all_signed (p : Page) : Prop := ∀ w, w ∈ watches p → signed w.2.

End ShareButton.

(* ================================================================== *)
(** * More of the booking pages                                        *)
(* ================================================================== *)

(** [cancelBooking] of the passenger dashboard (part_003, lines 57-69). *)
Module PassengerBookings.
Import Fx Page.

Definition cancelBooking (bookingId : string) (r : Store.reply) : M Page unit :=
  error ← send (Store.UpdateBookingStatus bookingId booking_status.cancelled) r;
  match error with
  | Some _ => emit (toast_error "Failed to cancel booking")
  | None =>
      emit (toast_success "Booking cancelled") ;;
      emit (Request (Store.Select "bookings"))          (* fetchBookings() *)
  end.

End PassengerBookings.

(** The effect of [src/pages/TripDetails.tsx] (lines 53-66) that looks
    for a request the user already has on the trip. *)
Module TripDetailsExisting.
Import Fx TripDetails.

(** [b.status === 'pending' || b.status === 'accepted']. *)
Definition open_request (b : Booking.Booking) : Prop :=
  Booking.status b = booking_status.pending
  ∨ Booking.status b = booking_status.accepted.

#[global] Instance open_request_dec b : Decision (open_request b).
Proof. unfold open_request. apply _. Defined.

Definition newer_or_equal (b1 b2 : Booking.Booking) : Prop :=
  Booking.created_at b2 ≤ Booking.created_at b1.

#[global] Instance newer_or_equal_dec : RelDecision newer_or_equal.
Proof. intros b1 b2. unfold newer_or_equal. apply _. Defined.

(** The select: the requests of that passenger on that trip, newest
    first. *)
Definition own_requests (id user_id : string) (bookings : list Booking.Booking)
  : list Booking.Booking :=
  merge_sort newer_or_equal
    (filter (λ b, Booking.trip_id b = id ∧ Booking.passenger_id b = user_id) bookings).

(** [id] is the route parameter, [user] the id of the signed-in user;
    [answered]: the select came back with rows ([data] is not [null]). *)
Definition fetchExisting (id : option string) (user : option string)
    (answered : bool) : M State unit :=
  match id, user with
  | Some trip_id, Some user_id =>
      if decide (trip_id = "") then ret tt
      else
        s ← get;
        emit (Request (Store.Select "bookings")) ;;
        let data :=
          if answered then own_requests trip_id user_id (Store.bookings (db s))
          else [] in
        modify (set_existingBooking (snd <$> list_find open_request data))
  | _, _ => ret tt
  end.

(** What [handleBookingSubmit] runs once its three checks are passed
    ([src/pages/TripDetails.tsx], lines 139-173). *)
Definition submit_past_checks (t : Trip.Trip) (user_id : string) (client_now : Z)
    (r : Store.reply) (s : TripDetails.State) : M TripDetails.State unit :=
  modify (TripDetails.set_bookingLoading true) ;;
  try_finally
    (try_catch
       (error ← send (Store.InsertBooking
                        (TripDetails.booking_values t user_id (TripDetails.bookingForm s))) r;
        match error with
        | Some e => throw e
        | None =>
            emit (toast_success "Booking request sent successfully!") ;;
            modify (TripDetails.set_showBookingForm false) ;;
            modify (TripDetails.set_bookingForm
                      {| TripDetails.seats := 1; TripDetails.message := "" |}) ;;
            modify (TripDetails.set_existingBooking
                      (Some (TripDetails.temp_booking t user_id
                               (TripDetails.bookingForm s) client_now)))
        end)
       (λ e, emit (toast_error (message_or e "Failed to send booking request"))))
    (modify (TripDetails.set_bookingLoading false)).

End TripDetailsExisting.

(* ================================================================== *)
(** * The live map writing positions (part_004)                        *)
(* ================================================================== *)

Module LiveMap.
Import Fx.

Record State := {
  db : Store.Db;
  userPosition : option Presenter.LatLng
}.

Definition set_db (d : Store.Db) (s : State) : State :=
  {| db := d; userPosition := userPosition s |}.
Definition setUserPosition (p : option Presenter.LatLng) : M State unit :=
  modify (λ s, {| db := db s; userPosition := p |}).

#[global] Instance State_HasDb : HasDb State := {| get_db := db; put_db := set_db |}.

(** The payload carries [updated_at: new Date().toISOString()], so the
    row gets the client's time and not the column default. *)
Definition at_client_time (client_now : Z) (r : Store.reply) : Store.reply :=
  match r with
  | Store.Accepts st =>
      Store.Accepts {| Store.gen_id := Store.gen_id st; Store.now := client_now |}
  | Store.Rejects m => Store.Rejects m
  end.

Definition location_values (user_id : string) (tripId : option string)
    (position : Presenter.LatLng) : Store.LocationValues :=
  {| Store.v_actor_id := Some user_id; Store.v_trip_id := tripId;
     Store.v_latitude := position.1; Store.v_longitude := position.2;
     Store.v_heading := None; Store.v_speed := None |}.

(** The table a role writes to: [profile?.role === 'driver'], anything
    else (also no profile at all) is taken for a passenger. *)
Definition table_of (role : option string) : Store.location_table :=
  if decide (role = Some "driver") then Store.driver_locations_t
  else Store.passenger_locations_t.

(** [updateUserLocation] (lines 269-308).  [role] is what the lookup of
    the user's profile gave. *)
Definition updateUserLocation (user : option string) (role : option string)
    (position : Presenter.LatLng) (tripId : option string) (client_now : Z)
    (r : Store.reply) : M State unit :=
  match user with
  | None => ret tt
  | Some user_id =>
      try_catch
        (emit (Request (Store.Select "profiles")) ;;
         if decide (role = Some "driver")
         then
           dlError ← send (Store.InsertLocation Store.driver_locations_t
                             (location_values user_id tripId position))
                          (at_client_time client_now r);
           match dlError with
           | Some e => throw e
           | None => ret tt
           end
         else
           plError ← send (Store.InsertLocation Store.passenger_locations_t
                             (location_values user_id tripId position))
                          (at_client_time client_now r);
           match plError with
           | Some e => throw e
           | None => ret tt
           end)
        (λ _, emit (console_error "Error updating location:"))
  end.

(** The success callback of the map's own position watch (lines
    165-174). *)
Definition onPosition (user : option string) (selectedTrip : option Trip.Trip)
    (role : option string) (newPosition : Presenter.LatLng) (client_now : Z)
    (r : Store.reply) : M State unit :=
  setUserPosition (Some newPosition) ;;
  match selectedTrip, user with
  | Some t, Some _ =>
      updateUserLocation user role newPosition (Some (Trip.id t)) client_now r
  | _, _ => ret tt
  end.

End LiveMap.

(** The route line of the selected trip ([getRouteCoordinates], in both
    copies of [EnhancedMapComponent]). *)
Module Route.

(** [lat && lng]: both set and not [0]. *)
Definition point (lat lng : option Z) : option Presenter.LatLng :=
  a ← Presenter.truthy lat; b ← Presenter.truthy lng; Some (a, b).

Definition getRouteCoordinates (trip : Trip.Trip) : list Presenter.LatLng :=
  let coords := [] in
  let coords :=
    match point (Trip.start_lat trip) (Trip.start_lng trip) with
    | Some c => coords ++ [c]
    | None => coords
    end in
  let coords :=
    match point (Trip.dest_lat trip) (Trip.dest_lng trip) with
    | Some c => coords ++ [c]
    | None => coords
    end in
  coords.

End Route.

(* ================================================================== *)
(** * The edge functions ([supabase/functions])                        *)
(* ================================================================== *)

Module Profile.
Record Profile := {
  user_id : string;
  email : string;
  full_name : string;
  phone : option string;
  role : string
}.
End Profile.

(** [send-booking-notification/index.ts], lines 1-166. *)
Module Notification.
Import Fx.

(** The booking as the handler selects it, with its trip and the profile
    of its passenger. *)
Record BookingDetails := {
  booking : Booking.Booking;
  trip : Trip.Trip;
  passenger : Profile.Profile
}.

Record Email := {
  from : string;
  to : list string;
  subject : string;
  html : string
}.

(** [await req.json()]. *)
Inductive json_body :=
  | bad_json (message : string)
  | request_body (bookingId : string) (type : string).

(** What [resend.emails.send] does with the message. *)
Inductive send_result :=
  | delivered (emailResponse : string)
  | send_throws (message : string).

Inductive response_body :=
  | null
  | success_true (emailResponse : string)
  | error (message : string).

Record Response := {
  status : Z;
  body : response_body;
  cors : bool                    (* the headers include [corsHeaders] *)
}.

(** What the function has handed to the mail service ([None]: the
    [undefined] an unknown [type] leaves in [emailData]) and written
    with [console.log]. *)
Record State := {
  outbox : list (option Email);
  logged : list string
}.

Definition hand_over (e : option Email) : M State unit :=
  modify (λ s, {| outbox := outbox s ++ [e]; logged := logged s |}).
Definition console_log (line : string) : M State unit :=
  modify (λ s, {| outbox := outbox s; logged := logged s ++ [line] |}).

Section templates.

(** The three HTML bodies: template literals over the booking and the
    driver's profile (they format the departure with [toLocaleString]). *)
Variable html_created html_accepted html_rejected :
  BookingDetails → Profile.Profile → string.

Definition emailData (type : string) (b : BookingDetails) (driver : Profile.Profile)
  : option Email :=
  if decide (type = "booking_created")
  then Some {| from := "TripConnect <noreply@resend.dev>";
               to := [Profile.email driver];
               subject := "New Booking Request - TripConnect";
               html := html_created b driver |}
  else if decide (type = "booking_accepted")
  then Some {| from := "TripConnect <noreply@resend.dev>";
               to := [Profile.email (passenger b)];
               subject := "Booking Confirmed - TripConnect";
               html := html_accepted b driver |}
  else if decide (type = "booking_rejected")
  then Some {| from := "TripConnect <noreply@resend.dev>";
               to := [Profile.email (passenger b)];
               subject := "Booking Update - TripConnect";
               html := html_rejected b driver |}
  else None.

(** [found] and [driver_found]: what the two selects return ([None]: an
    error or no row). *)
Definition handler (method : string) (json : json_body)
    (found : option BookingDetails) (driver_found : option Profile.Profile)
    (mail : send_result) : M State Response :=
  if decide (method = "OPTIONS")
  then ret {| status := 200; body := null; cors := true |}
  else
    try_catch
      (type ← match json with
              | bad_json m => throw m
              | request_body _ type => ret type
              end;
       b ← match found with
           | Some b => ret b
           | None => throw "Booking not found"
           end;
       driver ← match driver_found with
                | Some d => ret d
                | None => throw "Driver not found"
                end;
       hand_over (emailData type b driver) ;;
       emailResponse ← match mail with
                       | delivered emailResponse => ret emailResponse
                       | send_throws m => throw m
                       end;
       console_log "Email sent successfully:" ;;
       ret {| status := 200; body := success_true emailResponse; cors := true |})
      (λ e,
         emit (console_error "Error sending email:") ;;
         ret {| status := 500; body := error e; cors := true |}).

End templates.

End Notification.

(** The directions function (the second file of [index.ts], lines
    166-252). *)
Module Directions.
Import Fx.

Definition LngLat : Type := Z * Z.

Record DirectionsRequest := {
  fromName : option string;
  toName : option string;
  fromCoord : option LngLat;
  toCoord : option LngLat;
  country : option string
}.

Inductive json_body :=
  | bad_json (message : string)
  | request_body (body : DirectionsRequest).

(** What the geocoding request comes back with. *)
Inductive geocoded :=
  | geocode_status (status : Z)                 (* [!res.ok] *)
  | geocode_features (centers : list LngLat)
  | geocode_throws (message : string).          (* [fetch] or [res.json()] *)

(** What the directions request comes back with. *)
Inductive routed :=
  | directions_status (status : Z)
  | directions_routes (routes : list (list LngLat))
  | directions_throws (message : string).

(** The requests the function sends out. *)
Inductive call :=
  | Geocode (name : string) (country : option string)
  | GetDirections (from to : LngLat).

Inductive response_body :=
  | error (message : string)
  | coordinates (coords : list LngLat).

Record Response := {
  status : Z;
  body : response_body
}.

(** Truthiness of an optional string. *)
Definition truthy (x : option string) : option string :=
  match x with
  | Some s => if decide (s = "") then None else Some s
  | None => None
  end.

Definition fetch (c : call) : M (list call) unit := modify (λ calls, calls ++ [c]).

Definition geocode (name : string) (country : option string) (g : geocoded)
  : M (list call) LngLat :=
  fetch (Geocode name (truthy country)) ;;
  match g with
  | geocode_status st => throw ("Geocoding failed: " +:+ pretty st)
  | geocode_features [] => throw "No results for geocoding"
  | geocode_features (center :: _) => ret center
  | geocode_throws m => throw m
  end.

Definition directions (from to : LngLat) (d : routed) : M (list call) (list LngLat) :=
  fetch (GetDirections from to) ;;
  match d with
  | directions_status st => throw ("Directions failed: " +:+ pretty st)
  | directions_routes [] => throw "No routes found"
  | directions_routes (route :: _) => ret route
  | directions_throws m => throw m
  end.

(** An endpoint: its coordinates when given, else its name geocoded. *)
Definition endpoint (coord : option LngLat) (name : option string)
    (country : option string) (g : geocoded) : M (list call) (option LngLat) :=
  match coord with
  | Some c => ret (Some c)
  | None =>
      match truthy name with
      | Some n => c ← geocode n country g; ret (Some c)
      | None => ret None
      end
  end.

(** The handler; [g_from], [g_to] and [d] are what the outbound requests
    come back with, should they be made. *)
Definition serve (MAPBOX_TOKEN : option string) (json : json_body)
    (g_from g_to : geocoded) (d : routed) : M (list call) Response :=
  match truthy MAPBOX_TOKEN with
  | None =>
      ret {| status := 400; body := error "Missing MAPBOX_PUBLIC_TOKEN secret" |}
  | Some _ =>
      try_catch
        (body ← match json with
                | bad_json m => throw m
                | request_body body => ret body
                end;
         from ← endpoint (fromCoord body) (fromName body) (country body) g_from;
         to ← endpoint (toCoord body) (toName body) (country body) g_to;
         match from, to with
         | Some f, Some t =>
             coords ← directions f t d;
             ret {| status := 200; body := coordinates coords |}
         | _, _ =>
             ret {| status := 400;
                    body := error "Provide from/to names or coordinates" |}
         end)
        (λ e, ret {| status := 500; body := error (message_or e "Unknown error") |})
  end.

(** What an endpoint comes to when nothing fails, and the name that has
    to be geocoded for it, if any. *)
Definition resolved (coord : option LngLat) (name : option string) (g : geocoded)
  : option LngLat :=
  match coord with
  | Some c => Some c
  | None =>
      match truthy name, g with
      | Some _, geocode_features (c :: _) => Some c
      | _, _ => None
      end
  end.

Definition geocoding_needed (coord : option LngLat) (name : option string)
  : option string :=
  match coord with
  | Some _ => None
  | None => truthy name
  end.

End Directions.
(* ================================================================== *)
(** * Facts: latest row per actor                                      *)
(* ================================================================== *)

Module LocFacts.
Import Loc.

#[global] Instance later_or_equal_trans : Transitive later_or_equal.
Proof. unfold later_or_equal. intros x y z ??. lia. Qed.

#[global] Instance later_or_equal_total : Total later_or_equal.
Proof. unfold later_or_equal. intros x y. lia. Qed.

Lemma new_Date_mono t1 t2 : t1 ≤ t2 → new_Date t1 ≤ new_Date t2.
Proof. unfold new_Date. intros. apply Z.div_le_mono; lia. Qed.

Lemma find_None a acc : find a acc = None ↔ a ∉ actor_id <$> acc.
Proof.
  unfold find. rewrite fmap_None, list_find_None, Forall_forall, list_elem_of_fmap.
  split.
  - intros H (r & -> & Hr). by apply (H r).
  - intros H r Hr Ha. apply H. by exists r.
Qed.

Lemma find_Some a acc r : find a acc = Some r → r ∈ acc ∧ actor_id r = a.
Proof.
  unfold find. rewrite fmap_Some. intros ([i r'] & Hf & ->). simpl.
  apply list_find_Some in Hf as (Hi & Ha & _).
  split; [by eapply list_elem_of_lookup_2|done].
Qed.

(** [indexOf] of the row returned by [find] is the position [find]
    stopped at: object identity and the actor test pick the same slot. *)
Lemma indexOf_find a acc r :
  find a acc = Some r → ∃ i, indexOf r acc = Some i ∧ acc !! i = Some r.
Proof.
  intros [Hr _]%find_Some.
  destruct (list_find_elem_of (λ l, l = r) acc r Hr eq_refl) as [[i r'] Hf].
  exists i. unfold indexOf. rewrite Hf. simpl. split; [done|].
  by apply list_find_Some in Hf as (Hi & -> & _).
Qed.

Lemma latest_first_seen_snoc pre x :
  latest_first_seen (pre ++ [x]) = first_seen_step (latest_first_seen pre) x.
Proof. unfold latest_first_seen. by rewrite foldl_app. Qed.

Lemma latest_replace_snoc pre x :
  latest_replace (pre ++ [x]) = replace_step (latest_replace pre) x.
Proof. unfold latest_replace. by rewrite foldl_app. Qed.

Lemma sorted_snoc pre x :
  StronglySorted later_or_equal (pre ++ [x]) →
  StronglySorted later_or_equal pre ∧ ∀ y, y ∈ pre → updated_at x ≤ updated_at y.
Proof.
  rewrite StronglySorted_app. intros (Hle & Hpre & _). split; [done|].
  intros y Hy. apply (Hle y x Hy). by apply list_elem_of_singleton.
Qed.

(** One step of the first-seen reducer keeps "latest per actor" when the
    new row is no later than every row before it. *)
Lemma first_seen_step_latest pre acc x :
  latest_per_actor pre acc →
  (∀ y, y ∈ pre → updated_at x ≤ updated_at y) →
  latest_per_actor (pre ++ [x]) (first_seen_step acc x).
Proof.
  intros [Hnd Hact Hin Hmax] Hx. unfold first_seen_step, push.
  destruct (find (actor_id x) acc) as [e|] eqn:Hf.
  - apply find_Some in Hf as [He Hea]. split.
    + done.
    + intros a. rewrite fmap_app, elem_of_app, Hact. simpl.
      rewrite list_elem_of_singleton. split; [by left|].
      intros [?| ->]; [done|]. apply Hact. rewrite <- Hea.
      by apply list_elem_of_fmap_2.
    + intros r Hr. apply elem_of_app. left. by apply Hin.
    + intros r r' Hr [Hr'| ->%list_elem_of_singleton]%elem_of_app Ha.
      * by apply Hmax.
      * apply Hx. by apply Hin.
  - apply find_None in Hf. split.
    + rewrite fmap_app. apply NoDup_app. split; [done|]. split.
      * intros a Ha ->%list_elem_of_singleton. done.
      * apply NoDup_singleton.
    + intros a. rewrite !fmap_app, !elem_of_app, Hact. done.
    + intros r [Hr| ->%list_elem_of_singleton]%elem_of_app; apply elem_of_app.
      * left. by apply Hin.
      * right. by apply list_elem_of_singleton.
    + intros r r' [Hr| ->%list_elem_of_singleton]%elem_of_app
        [Hr'| ->%list_elem_of_singleton]%elem_of_app Ha.
      * by apply Hmax.
      * exfalso. apply Hf. rewrite Ha. by apply list_elem_of_fmap_2.
      * exfalso. apply Hf. apply Hact. rewrite <- Ha. by apply list_elem_of_fmap_2.
      * lia.
Qed.

Lemma latest_per_actor_nil : latest_per_actor [] [].
Proof.
  split; simpl; [apply NoDup_nil_2|done|done|].
  intros r r' Hr. by apply elem_of_nil in Hr.
Qed.

Lemma latest_first_seen_sorted data :
  StronglySorted later_or_equal data →
  latest_per_actor data (latest_first_seen data).
Proof.
  induction data as [|x pre IH] using rev_ind; intros Hs.
  - apply latest_per_actor_nil.
  - apply sorted_snoc in Hs as [Hpre Hx]. rewrite latest_first_seen_snoc.
    apply first_seen_step_latest; auto.
Qed.

(** On an accumulator whose rows are all at least as late as the current
    one, the replacing reducer never replaces. *)
Lemma replace_step_first_seen acc x :
  (∀ y, y ∈ acc → updated_at x ≤ updated_at y) →
  replace_step acc x = first_seen_step acc x.
Proof.
  intros Hx. unfold replace_step, first_seen_step.
  destruct (find (actor_id x) acc) as [e|] eqn:Hf; [|done].
  apply find_Some in Hf as [He _]. case_decide as Hlt; [|done].
  specialize (new_Date_mono _ _ (Hx e He)). lia.
Qed.

Lemma latest_replace_sorted data :
  StronglySorted later_or_equal data →
  latest_replace data = latest_first_seen data.
Proof.
  induction data as [|x pre IH] using rev_ind; intros Hs; [done|].
  apply sorted_snoc in Hs as [Hpre Hx].
  rewrite latest_replace_snoc, latest_first_seen_snoc, (IH Hpre).
  apply replace_step_first_seen. intros y Hy. apply Hx.
  by apply (lpa_from_rows _ _ (latest_first_seen_sorted pre Hpre)).
Qed.

Lemma latest_per_actor_perm rows data result :
  data ≡ₚ rows → latest_per_actor data result → latest_per_actor rows result.
Proof.
  intros Hp [Hnd Hact Hin Hmax]. split.
  - done.
  - intros a. by rewrite Hact, Hp.
  - intros r Hr. rewrite <- Hp. by apply Hin.
  - intros r r' Hr Hr'. apply Hmax; [done|]. by rewrite Hp.
Qed.

Lemma order_desc_perm rows : order_desc rows ≡ₚ rows.
Proof. apply merge_sort_Permutation. Qed.

Lemma order_desc_sorted rows : StronglySorted later_or_equal (order_desc rows).
Proof. apply StronglySorted_merge_sort; apply _. Qed.

(** C1. Whatever rows the select returns, and in whatever order the
    database breaks ties when it orders them by [updated_at] descending,
    each of the three fetches ends with exactly one row for every actor
    that has a row and for no other actor, and that row is one of the
    actor's rows with the greatest [updated_at]. *)
Theorem C1_latest_row_per_actor rows :
  (latest_per_actor rows (fetchDriverLocations_enhanced rows)
   ∧ latest_per_actor rows (fetchDriverLocations_map rows)
   ∧ latest_per_actor rows (fetchPassengerLocations rows))
  ∧ ∀ data, data ≡ₚ rows → Sorted later_or_equal data →
      latest_per_actor rows (latest_first_seen data)
      ∧ latest_per_actor rows (latest_replace data).
Proof.
  assert (Hgen : ∀ data, data ≡ₚ rows → StronglySorted later_or_equal data →
            latest_per_actor rows (latest_first_seen data)
            ∧ latest_per_actor rows (latest_replace data)).
  { intros data Hp Hs. rewrite (latest_replace_sorted data Hs).
    split; apply (latest_per_actor_perm rows data); auto using latest_first_seen_sorted. }
  split.
  - unfold fetchDriverLocations_enhanced, fetchDriverLocations_map,
      fetchPassengerLocations.
    destruct (Hgen (order_desc rows) (order_desc_perm rows) (order_desc_sorted rows)).
    done.
  - intros data Hp Hs. apply Hgen; [done|]. by apply Sorted_StronglySorted; [apply _|].
Qed.

Lemma samples_desc_sorted : Sorted later_or_equal Scenario.samples_desc.
Proof. repeat constructor; unfold later_or_equal; simpl; lia. Qed.

Lemma C1_latest_row_per_actor_witness :
  latest_per_actor Scenario.samples (latest_first_seen Scenario.samples_desc)
  ∧ latest_per_actor Scenario.samples (latest_replace Scenario.samples_desc).
Proof.
  apply (proj2 (C1_latest_row_per_actor Scenario.samples) Scenario.samples_desc).
  - change Scenario.samples_desc with (reverse Scenario.samples).
    apply reverse_Permutation.
  - apply samples_desc_sorted.
Defined.

(** The scenario of the specification: D reports at t=1 (lat 10) and at
    t=2 (lat 20); only the later sample of D is kept. *)
Example latest_of_D :
  let D := Scenario.row "1" "D" 10 1000 in
  let D' := Scenario.row "3" "D" 20 2000 in
  fetchDriverLocations_enhanced [D; D'] = [D']
  ∧ fetchDriverLocations_map [D; D'] = [D']
  ∧ fetchPassengerLocations [D; D'] = [D'].
Proof. vm_compute. done. Qed.

(** C2. On rows ordered by [updated_at], latest first, the reducer that
    keeps the first row seen of each actor and the reducer that replaces
    on a strictly later timestamp build the same list, hence the same
    mapping from actor id to row. *)
Theorem C2_reducers_agree_on_ordered_rows data :
  Sorted later_or_equal data →
  latest_replace data = latest_first_seen data
  ∧ as_mapping (latest_replace data) = as_mapping (latest_first_seen data).
Proof.
  intros Hs. apply Sorted_StronglySorted in Hs; [|apply _].
  by rewrite (latest_replace_sorted data Hs).
Qed.

Lemma C2_reducers_agree_on_ordered_rows_witness :
  latest_replace Scenario.samples_desc = latest_first_seen Scenario.samples_desc
  ∧ as_mapping (latest_replace Scenario.samples_desc)
    = as_mapping (latest_first_seen Scenario.samples_desc).
Proof.
  apply C2_reducers_agree_on_ordered_rows. apply samples_desc_sorted.
Defined.

(** The order matters: on the same rows as stored (oldest first) the two
    reducers keep different rows of D. *)
Example reducers_differ_unordered :
  Loc.latitude <$> latest_first_seen Scenario.samples = [10; 30]
  ∧ Loc.latitude <$> latest_replace Scenario.samples = [20; 30].
Proof. vm_compute. done. Qed.

End LocFacts.

(* ================================================================== *)
(** * Facts: location sharing                                          *)
(* ================================================================== *)

Ltac fx :=
  cbv [mbind mret Fx.M_bind Fx.M_ret Fx.bind Fx.ret Fx.try_catch Fx.try_finally
       Fx.emit Fx.get Fx.modify Fx.throw Fx.send] in *.

(** The monad laws, pointwise, and what [try_catch] guarantees. *)
Module FxFacts.
Import Fx.

Lemma bind_ret_l {S A B} (a : A) (k : A → M S B) (s : S) :
  (mret a ≫= k) s = k a s.
Proof. fx. simpl. by destruct (k a s). Qed.

Lemma bind_ret_r {S A} (m : M S A) (s : S) : (m ≫= mret) s = m s.
Proof.
  fx. destruct (m s) as [s' tr [a|e]]; simpl; [|done]. by rewrite app_nil_r.
Qed.

Lemma bind_assoc {S A B C} (m : M S A) (k : A → M S B) (h : B → M S C) (s : S) :
  ((m ≫= k) ≫= h) s = (m ≫= (λ a, k a ≫= h)) s.
Proof.
  fx. destruct (m s) as [s1 t1 [a|e]]; simpl; [|done].
  destruct (k a s1) as [s2 t2 [b|e]]; simpl; [|done].
  by rewrite app_assoc.
Qed.

(** A [try] whose handler returns does not throw. *)
Lemma try_catch_returns {S A} (body : M S A) (handler : string → M S A) (s : S) :
  (∀ e s', ∃ a, outcome (handler e s') = Returned a) →
  ∃ a, outcome (try_catch body handler s) = Returned a.
Proof.
  intros Hh. unfold try_catch. destruct (body s) as [s' tr [a|e]]; simpl; eauto.
Qed.

(** The [finally] block runs on whatever state the body left. *)
Lemma try_finally_final {S A} (body : M S A) (fin : M S unit) (s : S) :
  final (try_finally body fin s) = final (fin (final (body s))).
Proof. reflexivity. Qed.

End FxFacts.

Module SharingFacts.
Import Fx Page.

(** Stopping while sharing: the watch is cleared, the global is deleted,
    the flag is cleared. *)
Example stop_while_sharing :
  let res := stopLocationSharing Scenario.sharing_page in
  watches (final res) = [] ∧ locationWatchId (final res) = None
  ∧ isSharing (final res) = false
  ∧ trace res = [toast_success "Location sharing stopped"].
Proof. vm_compute. done. Qed.

(** Starting on a page without watches and stopping again leaves none
    (watch ids handed out by the browser are not [0]). *)
Lemma start_then_stop nav u p :
  watches p = [] → next_watch p ≠ 0 →
  geolocation nav = true → isSecureContext nav = true → truthy_id u = true →
  watches (final ((DriverDashboard002.startLocationSharing nav u ;;
                   stopLocationSharing) p)) = [].
Proof.
  intros Hw Hn Hg Hs Hu. destruct p as [d ws n h sh ub]. simpl in *. subst ws.
  unfold DriverDashboard002.startLocationSharing, stopLocationSharing.
  rewrite Hg, Hs, Hu. fx. simpl.
  destruct (decide (n ≠ 0)); [|done]. simpl.
  rewrite filter_cons, filter_nil. simpl. by destruct (decide (n ≠ n)).
Qed.

(** A refused insert: the error is caught in [updateLocation], a message
    is shown, [isSharing] is cleared, nothing is written and the request
    is not sent again ... *)
Lemma insert_refused_driver u position m p :
  let res := DriverDashboard002.updateLocation u position (Store.Rejects m) p in
  outcome res = Returned tt
  ∧ trace res = [Request (Store.InsertLocation Store.driver_locations_t
                            (values_of u position));
                 console_error "Failed to update location:";
                 toast_error "Failed to update location"]
  ∧ db (final res) = db p
  ∧ isSharing (final res) = false.
Proof. destruct p. repeat split. Qed.

Lemma insert_refused_passenger u position m p :
  let res := PassengerDashboard.updateLocation u position (Store.Rejects m) p in
  outcome res = Returned tt
  ∧ trace res = [Request (Store.InsertLocation Store.passenger_locations_t
                            (values_of u position));
                 console_error "Failed to update location:";
                 toast_error "Failed to update location"]
  ∧ db (final res) = db p
  ∧ isSharing (final res) = false.
Proof. destruct p. repeat split. Qed.

(** ... but the watch is left registered: the callback goes on being
    called with every later position. *)
Lemma insert_refused_watch_stays cb position m p :
  let res := Device.success_callback cb position (Store.Rejects m) p in
  watches (final res) = watches p ∧ locationWatchId (final res) = locationWatchId p.
Proof. destruct p, cb; repeat split. Qed.

(** The guard of the two later dashboards: without a secure context
    nothing starts, and one error message is shown. *)
Lemma guarded_start_driver nav u p :
  isSecureContext nav = false →
  let res := DriverDashboard002.startLocationSharing nav u p in
  final res = p ∧ outcome res = Returned tt ∧ requests (trace res) = []
  ∧ trace res =
      [toast_error (if geolocation nav
                    then "Location sharing requires HTTPS. Please use a secure connection."
                    else "Geolocation is not supported by this browser")].
Proof.
  intros Hs. unfold DriverDashboard002.startLocationSharing. rewrite Hs.
  destruct (geolocation nav); repeat split.
Qed.

Lemma guarded_start_passenger nav u p :
  isSecureContext nav = false →
  let res := PassengerDashboard.startLocationSharing nav u p in
  final res = p ∧ outcome res = Returned tt ∧ requests (trace res) = []
  ∧ trace res =
      [toast_error (if geolocation nav
                    then "Location sharing requires HTTPS. Please use a secure connection."
                    else "Geolocation is not supported by this browser")].
Proof.
  intros Hs. unfold PassengerDashboard.startLocationSharing. rewrite Hs.
  destruct (geolocation nav); repeat split.
Qed.

(** [src/pages/DriverDashboard.tsx] never reads [isSecureContext]. *)
Lemma unguarded_start secure u p :
  DriverDashboard.startLocationSharing
    {| geolocation := true; isSecureContext := secure |} u p
  = Run (set_locationWatchId (Some (next_watch p))
           (set_watches (watches p ++ [(next_watch p, upsert_driver u)])
              (next_watch p + 1) (set_isSharing true p)))
        [toast_success "Location sharing started"] (Returned tt).
Proof. destruct p. reflexivity. Qed.

(** The watch id is kept in one global: a second start after an error
    callback overwrites it, and stopping then clears the second watch
    only. *)
Example restart_leaves_first_watch :
  let run :=
    DriverDashboard002.startLocationSharing Scenario.https (Some "driver-1") ;;
    onGeolocationError ;;
    DriverDashboard002.startLocationSharing Scenario.https (Some "driver-1") ;;
    stopLocationSharing in
  watches (final (run Scenario.fresh_page)) = [(1, insert_driver (Some "driver-1"))].
Proof. vm_compute. reflexivity. Qed.

(** C3. Sharing is started from the driver dashboard of part_002, the
    store refuses the first sample and the device reports a second
    position: the refusal is shown and the refused sample is not sent
    again, but the watch is still registered, so the second sample is
    sent and stored, with [isSharing] already cleared.  The
    specification asks that a refused insert stops the stream. *)
Theorem C3_refused_insert_keeps_streaming :
  let res := Scenario.refused_then_next Scenario.fresh_page in
  outcome res = Returned tt
  ∧ trace res =
      [toast_success "Location sharing started";
       Request (Store.InsertLocation Store.driver_locations_t
                  (values_of (Some "driver-1") Scenario.here));
       console_error "Failed to update location:";
       toast_error "Failed to update location";
       Request (Store.InsertLocation Store.driver_locations_t
                  (values_of (Some "driver-1") Scenario.there))]
  ∧ Store.driver_locations (db (final res)) =
      [Store.new_location Scenario.stamp2 "driver-1"
         (values_of (Some "driver-1") Scenario.there)]
  ∧ watches (final res) = [(1, insert_driver (Some "driver-1"))]
  ∧ isSharing (final res) = false.
Proof. vm_compute. repeat split. Qed.

(** C4. On a page that is not a secure context, [startLocationSharing]
    of [src/pages/DriverDashboard.tsx] is not refused: it returns
    normally, shows no error, sets [isSharing], registers the watch,
    keeps its id and reports success; the tables are untouched.  The
    same call on the dashboards of part_002 and part_003 starts nothing
    and shows the HTTPS message.  The specification asks that the
    operation fails before any sampling starts. *)
Theorem C4_insecure_start_is_not_refused :
  let res := Scenario.insecure_start Scenario.fresh_page in
  isSecureContext Scenario.http = false
  ∧ outcome res = Returned tt
  ∧ trace res = [toast_success "Location sharing started"]
  ∧ watches (final res) = [(1, upsert_driver (Some "driver-1"))]
  ∧ locationWatchId (final res) = Some 1
  ∧ isSharing (final res) = true
  ∧ db (final res) = Scenario.empty_db
  ∧ DriverDashboard002.startLocationSharing Scenario.http (Some "driver-1")
      Scenario.fresh_page
    = Run Scenario.fresh_page
        [toast_error "Location sharing requires HTTPS. Please use a secure connection."]
        (Returned tt)
  ∧ PassengerDashboard.startLocationSharing Scenario.http (Some "passenger-1")
      Scenario.fresh_page
    = Run Scenario.fresh_page
        [toast_error "Location sharing requires HTTPS. Please use a secure connection."]
        (Returned tt).
Proof. vm_compute. repeat split. Qed.

End SharingFacts.

(* ================================================================== *)
(** * Facts: append-only location rows                                 *)
(* ================================================================== *)

Module AppendFacts.
Import Fx Page.

Lemma exec_insert_location t v r d :
  Store.exec (Store.InsertLocation t v) r d =
  match r, Store.v_actor_id v with
  | Store.Accepts st, Some a =>
      (Store.set_location_rows t (Store.location_rows t d ++ [Store.new_location st a v]) d,
       None)
  | Store.Accepts _, None => (d, Some Store.not_null)
  | Store.Rejects m, _ => (d, Some m)
  end.
Proof.
  unfold Store.exec, Store.run_request.
  destruct r, (Store.v_actor_id v); reflexivity.
Qed.

(** The tables after a sample went through the insert of part_002 ... *)
Lemma driver_insert_db u position r p :
  db (final (DriverDashboard002.updateLocation u position r p)) =
  (Store.exec (Store.InsertLocation Store.driver_locations_t (values_of u position))
     r (db p)).1.
Proof. destruct p, r as [st|m], u as [a|]; reflexivity. Qed.


(** The upsert of [src/pages/DriverDashboard.tsx] names a conflict
    target the table has no constraint for: whatever the backend
    answers, the tables are as before (and the page does not look at the
    answer). *)
Lemma driver_upsert_db u position r p :
  db (final (DriverDashboard.updateLocation u position r p)) = db p.
Proof. destruct p, r as [st|m]; reflexivity. Qed.




End AppendFacts.

(* ================================================================== *)
(** * Facts: bookings and trips                                        *)
(* ================================================================== *)

Module BookingFacts.
Import Fx.

(** C5. A booking form submitted for more seats than the trip has left
    is turned down before anything is sent: the handler returns, the
    page and the tables are as before, no request was made, and one
    error message is shown; wherever the form can be submitted at all
    ([canBook]), that message is the one about seats. *)
Theorem C5_too_many_seats_rejected user client_now r s t :
  TripDetails.trip s = Some t →
  Trip.available_seats t < TripDetails.seats (TripDetails.bookingForm s) →
  let res := TripDetails.handleBookingSubmit user client_now r s in
  outcome res = Returned tt
  ∧ final res = s
  ∧ requests (trace res) = []
  ∧ (∃ msg, trace res = [toast_error msg])
  ∧ (TripDetails.canBook user s t = true →
     trace res = [toast_error "Not enough seats available"]).
Proof.
  intros Ht Hlt. unfold TripDetails.handleBookingSubmit, TripDetails.canBook.
  fx. simpl. rewrite Ht. destruct user as [u|]; simpl.
  - destruct (decide (Trip.driver_id t = u)) as [->|Hne]; simpl.
    + split_and!; try done; [by eexists|].
      rewrite bool_decide_eq_true_2 by done. done.
    + destruct (decide (Trip.available_seats t < _)) as [_|Hge]; [|lia].
      simpl. split_and!; try done. by eexists.
  - split_and!; try done. by eexists.
Qed.

Lemma C5_too_many_seats_rejected_witness :
  let res := TripDetails.handleBookingSubmit (Some "passenger-1") 0
               (Store.Accepts Scenario.stamp1) (Scenario.details 4) in
  Store.bookings (TripDetails.db (final res)) = []
  ∧ trace res = [toast_error "Not enough seats available"].
Proof.
  cbv zeta.
  destruct (C5_too_many_seats_rejected (Some "passenger-1") 0
              (Store.Accepts Scenario.stamp1) (Scenario.details 4) Scenario.tripAB)
    as (_ & Hs & _ & _ & Hm).
  - reflexivity.
  - vm_compute. reflexivity.
  - split; [by rewrite Hs|]. apply Hm. vm_compute. reflexivity.
Defined.

(** A request within the seats left, from somebody who is not the
    driver, is sent with status [pending] (the scenario of the
    specification: 2 of 3 seats). *)
Example booking_created_pending :
  let res := TripDetails.handleBookingSubmit (Some "passenger-1") 0
               (Store.Accepts Scenario.stamp1) (Scenario.details 2) in
  (λ b, (Booking.seats_requested b, Booking.status b))
    <$> Store.bookings (TripDetails.db (final res))
  = [(2, booking_status.pending)].
Proof. vm_compute. reflexivity. Qed.

(** The driver dashboard of part_002: an update the store accepts sets
    the status of that booking, then the notification function is
    invoked, then the list is fetched again. *)
Lemma accepted_update_dispatches bookingId status st p :
  let res := DriverDashboard002.updateBookingStatus bookingId status
               (Store.Accepts st) p in
  outcome res = Returned tt
  ∧ trace res =
      [Request (Store.UpdateBookingStatus bookingId status);
       toast_success ("Booking " +:+ booking_status.text status +:+ "!");
       Request (Store.InvokeFunction "send-booking-notification" bookingId
                  (DriverDashboard002.notification_type status));
       Request (Store.Select "bookings")]
  ∧ Store.bookings (Page.db (final res)) =
      (λ b, if decide (Booking.id b = bookingId)
            then Booking.with_status status (Store.now st) b else b)
        <$> Store.bookings (Page.db p).
Proof. destruct p. repeat split. Qed.

(** An update the store refuses changes no booking and invokes nothing. *)
Lemma refused_update_changes_nothing bookingId status m p :
  let res := DriverDashboard002.updateBookingStatus bookingId status
               (Store.Rejects m) p in
  outcome res = Returned tt
  ∧ trace res =
      [Request (Store.UpdateBookingStatus bookingId status);
       console_error "Booking update error:";
       toast_error "Failed to update booking"]
  ∧ Page.db (final res) = Page.db p.
Proof. destruct p. repeat split. Qed.

(** Whatever the notification function answers, the page and the tables
    stay as they are. *)
Lemma notification_answer_keeps_state fnError p :
  let res := DriverDashboard002.notification_settled fnError p in
  outcome res = Returned tt ∧ final res = p.
Proof. destruct fnError; repeat split. Qed.

(** C6. Accepting the pending booking from
    [src/pages/DriverDashboard.tsx]: the status becomes [accepted] and
    the list is fetched again, but no notification is dispatched.  The
    specification asks that a dispatch is attempted after the status
    update. *)
Theorem C6_accept_without_dispatch :
  let res := DriverDashboard.updateBookingStatus "booking-1" booking_status.accepted
               (Store.Accepts Scenario.stamp2) Scenario.page_with_booking in
  Booking.status <$> Store.bookings (Page.db (final res)) = [booking_status.accepted]
  ∧ trace res =
      [Request (Store.UpdateBookingStatus "booking-1" booking_status.accepted);
       toast_success "Booking accepted!";
       Request (Store.Select "bookings")]
  ∧ ∀ name bookingId type,
      Store.InvokeFunction name bookingId type ∉ requests (trace res).
Proof.
  vm_compute. split_and!; [done..|].
  intros name b ty Hin. repeat (apply elem_of_cons in Hin as [Hin|Hin]; [discriminate|]).
  by apply elem_of_nil in Hin.
Qed.

End BookingFacts.

Module TripFacts.
Import Fx.

Section parsers.
Variable Date_parse : string → option Z.
Variable parseFloat : string → option Z.

Lemma tripData_scheduled user_id formData departure :
  Store.v_trip_status (CreateTrip.tripData parseFloat user_id formData departure)
  = trip_status.scheduled.
Proof. reflexivity. Qed.

(** The only request [handleSubmit] ever makes is the insert of
    [tripData]. *)
Lemma handleSubmit_requests profile formData client_now r s :
  requests (trace (CreateTrip.handleSubmit Date_parse parseFloat profile formData
                     client_now r s)) = []
  ∨ ∃ user_id departure,
      profile = Some user_id
      ∧ Date_parse (CreateTrip.departureDate formData +:+ "T"
                    +:+ CreateTrip.departureTime formData) = Some departure
      ∧ client_now < departure
      ∧ requests (trace (CreateTrip.handleSubmit Date_parse parseFloat profile formData
                           client_now r s))
        = [Store.InsertTrip (CreateTrip.tripData parseFloat user_id formData departure)].
Proof.
  unfold CreateTrip.handleSubmit. destruct profile as [u|]; [|by left].
  fx. simpl.
  destruct (Date_parse _) as [d|] eqn:Hd; simpl; [|by left].
  destruct (decide (d ≤ client_now)) as [Hle|Hgt]; simpl; [by left|].
  right. exists u, d. split_and!; [done|done|lia|].
  destruct r as [st|m]; reflexivity.
Qed.

Lemma handleSubmit_trips profile formData client_now r s :
  let res := CreateTrip.handleSubmit Date_parse parseFloat profile formData
               client_now r s in
  Store.trips (CreateTrip.db (final res)) = Store.trips (CreateTrip.db s)
  ∨ ∃ st user_id departure,
      r = Store.Accepts st ∧ profile = Some user_id
      ∧ Store.trips (CreateTrip.db (final res)) =
          Store.trips (CreateTrip.db s)
          ++ [Store.new_trip st (CreateTrip.tripData parseFloat user_id formData departure)].
Proof.
  unfold CreateTrip.handleSubmit. destruct profile as [u|]; [|by left].
  fx. simpl.
  destruct (Date_parse _) as [d|] eqn:Hd; simpl; [|by left].
  destruct (decide (d ≤ client_now)) as [Hle|Hgt]; simpl; [by left|].
  destruct r as [st|m]; simpl; [|by left].
  right. by exists st, u, d.
Qed.

End parsers.

(** C10. Whatever the form holds, a trip inserted by [handleSubmit] has
    status [scheduled]: every insert it requests carries that status,
    every trip it adds to the table has it, and a form that passes the
    checks (a signed-in profile, a departure in the future) does insert
    one when the store accepts. *)
Theorem C10_created_trip_is_scheduled Date_parse parseFloat profile formData
    client_now r s :
  let res := CreateTrip.handleSubmit Date_parse parseFloat profile formData
               client_now r s in
  (∀ v, Store.InsertTrip v ∈ requests (trace res) →
        Store.v_trip_status v = trip_status.scheduled)
  ∧ (∀ t, t ∈ Store.trips (CreateTrip.db (final res)) →
          t ∈ Store.trips (CreateTrip.db s) ∨ Trip.status t = trip_status.scheduled)
  ∧ (∀ user_id departure st,
       profile = Some user_id →
       Date_parse (CreateTrip.departureDate formData +:+ "T"
                   +:+ CreateTrip.departureTime formData) = Some departure →
       client_now < departure →
       r = Store.Accepts st →
       ∃ t, Store.trips (CreateTrip.db (final res)) = Store.trips (CreateTrip.db s) ++ [t]
            ∧ Trip.status t = trip_status.scheduled
            ∧ Trip.driver_id t = user_id).
Proof.
  cbv zeta. split_and!.
  - intros v Hv.
    destruct (handleSubmit_requests Date_parse parseFloat profile formData client_now r s)
      as [Hq|(u & d & _ & _ & _ & Hq)]; rewrite Hq in Hv.
    + by apply elem_of_nil in Hv.
    + apply list_elem_of_singleton in Hv. by injection Hv as ->.
  - intros t Ht.
    destruct (handleSubmit_trips Date_parse parseFloat profile formData client_now r s)
      as [Hq|(st & u & d & _ & _ & Hq)]; rewrite Hq in Ht.
    + by left.
    + apply elem_of_app in Ht as [Ht|Ht]; [by left|right].
      apply list_elem_of_singleton in Ht. by subst t.
  - intros u d st -> Hd Hlt ->. unfold CreateTrip.handleSubmit. fx. simpl.
    rewrite Hd. simpl. destruct (decide (d ≤ client_now)) as [Hle|_]; [lia|].
    simpl. eexists. split; [reflexivity|]. done.
Qed.

Lemma C10_created_trip_is_scheduled_witness :
  Trip.status <$>
    Store.trips (CreateTrip.db (final
      (CreateTrip.handleSubmit (λ _, Some 5000) (λ _, None) (Some "driver-1")
         Scenario.form 1000 (Store.Accepts Scenario.stamp1) Scenario.trip_page)))
  = [trip_status.scheduled].
Proof.
  destruct (C10_created_trip_is_scheduled (λ _, Some 5000) (λ _, None)
              (Some "driver-1") Scenario.form 1000 (Store.Accepts Scenario.stamp1)
              Scenario.trip_page) as (_ & _ & H).
  destruct (H "driver-1" 5000 Scenario.stamp1 eq_refl eq_refl ltac:(lia) eq_refl)
    as (t & Ht & Hst & _).
  rewrite Ht. simpl. rewrite Hst. reflexivity.
Defined.

End TripFacts.

(* ================================================================== *)
(** * Facts: teardown and viewport                                     *)
(* ================================================================== *)

Module PresenterFacts.
Import Fx.

Lemma filter_pair_twice {A} (P Q : A → Prop)
    `{!∀ x, Decision (P x), !∀ x, Decision (Q x)} (l : list A) :
  filter P (filter Q (filter P (filter Q l))) = filter P (filter Q l).
Proof. rewrite !list_filter_filter. apply list_filter_iff. intros x. tauto. Qed.

Lemma cleanup_channels subs s :
  Presenter.channels (final (Presenter.cleanup subs s)) =
  filter (λ x, x.1 ≠ Presenter.passengerSub subs)
    (filter (λ x, x.1 ≠ Presenter.driverSub subs) (Presenter.channels s)).
Proof. destruct s. reflexivity. Qed.

Lemma cleanup_twice subs s :
  final (Presenter.cleanup subs (final (Presenter.cleanup subs s)))
  = final (Presenter.cleanup subs s).
Proof.
  destruct s. unfold Presenter.cleanup, Presenter.removeChannel. fx. simpl.
  unfold Presenter.set_channels. simpl. f_equal. apply filter_pair_twice.
Qed.

Lemma stop_twice p :
  final (Page.stopLocationSharing (final (Page.stopLocationSharing p)))
  = final (Page.stopLocationSharing p).
Proof.
  destruct p as [d ws n [w|] sh ub]; unfold Page.stopLocationSharing; fx; simpl;
    [|reflexivity].
  destruct (decide (w ≠ 0)) as [Hw|Hw]; simpl; [reflexivity|].
  destruct (decide (w ≠ 0)); [done|reflexivity].
Qed.

Lemma stop_watches p w :
  Page.locationWatchId p = Some w → w ≠ 0 →
  Page.watches (final (Page.stopLocationSharing p))
  = filter (λ x, x.1 ≠ w) (Page.watches p).
Proof.
  intros Hh Hw. destruct p as [d ws n h sh ub]. simpl in Hh. subst h.
  unfold Page.stopLocationSharing. fx. simpl.
  destruct (decide (w ≠ 0)); [reflexivity|done].
Qed.

(** Tearing down twice is as good as once, for the realtime channels of
    the map and for the position watch of the dashboards: neither call
    throws, the second leaves the state of the first, the channels of
    the component (resp. the watch held in [window.locationWatchId]) are
    gone, and nothing stays subscribed when they were all there was. *)
Lemma teardown_twice :
  (∀ subs s,
     let r1 := Presenter.cleanup subs s in
     let r2 := Presenter.cleanup subs (final r1) in
     outcome r1 = Returned tt ∧ outcome r2 = Returned tt
     ∧ final r2 = final r1
     ∧ (∀ c, c ∈ Presenter.channels (final r2) →
             c.1 ≠ Presenter.driverSub subs ∧ c.1 ≠ Presenter.passengerSub subs)
     ∧ ((∀ c, c ∈ Presenter.channels s →
              c.1 = Presenter.driverSub subs ∨ c.1 = Presenter.passengerSub subs) →
        Presenter.channels (final r2) = []))
  ∧ (∀ p,
       let r1 := Page.stopLocationSharing p in
       let r2 := Page.stopLocationSharing (final r1) in
       outcome r1 = Returned tt ∧ outcome r2 = Returned tt
       ∧ final r2 = final r1
       ∧ (∀ w, Page.locationWatchId p = Some w → w ≠ 0 →
               (w ∉ (fst <$> Page.watches (final r2)))
               ∧ ((∀ x, x ∈ Page.watches p → x.1 = w) →
                  Page.watches (final r2) = []))).
Proof.
  split.
  - intros subs s. cbv zeta. rewrite cleanup_twice, cleanup_channels.
    split_and!; [done|done|done|..].
    + intros c. rewrite !list_elem_of_filter. tauto.
    + intros Hall. apply elem_of_nil_inv. intros c.
      rewrite !list_elem_of_filter. intros (Hp & Hd & Hc).
      destruct (Hall c Hc); done.
  - intros p. cbv zeta. rewrite stop_twice.
    split_and!.
    + destruct p as [d ws n [w|] sh ub]; unfold Page.stopLocationSharing; fx; simpl;
        [destruct (decide (w ≠ 0))|]; reflexivity.
    + destruct (final (Page.stopLocationSharing p)) as [d ws n [w|] sh ub];
        unfold Page.stopLocationSharing; fx; simpl;
        [destruct (decide (w ≠ 0))|]; reflexivity.
    + done.
    + intros w Hh Hw. rewrite (stop_watches p w Hh Hw). split.
      * rewrite list_elem_of_fmap. intros (x & -> & Hx).
        apply list_elem_of_filter in Hx as [Hne _]. done.
      * intros Hall. apply elem_of_nil_inv. intros x.
        rewrite list_elem_of_filter. intros [Hne Hx]. by apply Hne, Hall.
Qed.

Example teardown_twice_single_watch :
  Presenter.channels
    (final (Presenter.cleanup Scenario.subs
              (final (Presenter.cleanup Scenario.subs Scenario.subscribed_map)))) = []
  ∧ Page.watches
      (final (Page.stopLocationSharing
                (final (Page.stopLocationSharing Scenario.sharing_page)))) = [].
Proof.
  destruct teardown_twice as [Hc Hs]. split.
  - destruct (Hc Scenario.subs Scenario.subscribed_map) as (_ & _ & _ & _ & H).
    apply H. intros c Hin. change (Presenter.channels Scenario.subscribed_map)
      with [(1, "driver_locations"); (2, "passenger_locations")] in Hin.
    apply elem_of_cons in Hin as [->|Hin]; [by left|].
    apply list_elem_of_singleton in Hin as ->. by right.
  - destruct (Hs Scenario.sharing_page) as (_ & _ & _ & H).
    destruct (H 1 eq_refl ltac:(lia)) as [_ H']. apply H'.
    intros x Hin. change (Page.watches Scenario.sharing_page)
      with [(1, Page.insert_driver (Some "driver-1"))] in Hin.
    by apply list_elem_of_singleton in Hin as ->.
Qed.

(** C8. The watch the teardown does not reach.  On the dashboard of
    part_002 sharing is started, the store refuses the first sample,
    sharing is started again and the page is torn down twice: neither
    call throws and the page shows sharing as off with no watch id kept,
    but the first watch is still registered, and the position it
    reports next is sent and stored.  The specification asks that the
    teardown leaves nothing active. *)
Theorem C8_teardown_leaves_a_watch :
  let torn := Scenario.teardown_after_restart Scenario.fresh_page in
  let later := Device.report 1 Scenario.there (Store.Accepts Scenario.stamp2)
                 (final torn) in
  outcome torn = Returned tt
  ∧ Page.isSharing (final torn) = false
  ∧ Page.locationWatchId (final torn) = None
  ∧ final (Page.stopLocationSharing (final torn)) = final torn
  ∧ Page.watches (final torn) = [(1, Page.insert_driver (Some "driver-1"))]
  ∧ requests (trace later) =
      [Store.InsertLocation Store.driver_locations_t
         (Page.values_of (Some "driver-1") Scenario.there)]
  ∧ Store.driver_locations (Page.db (final later)) =
      [Store.new_location Scenario.stamp2 "driver-1"
         (Page.values_of (Some "driver-1") Scenario.there)].
Proof. vm_compute. repeat split. Qed.

(** The subscription effect followed by its cleanup leaves the client
    without channels when it had none. *)
Lemma subscribe_then_cleanup s :
  Presenter.channels s = [] →
  ∃ subs, outcome (Presenter.subscription_effect true s) = Returned (Some subs)
          ∧ Presenter.channels
              (final (Presenter.cleanup subs
                        (final (Presenter.subscription_effect true s)))) = [].
Proof.
  intros Hs. destruct s as [c n dl pl up mr sh tm]. simpl in Hs. subst c.
  eexists. split; [reflexivity|]. rewrite cleanup_channels. simpl.
  rewrite !filter_cons, filter_nil. simpl.
  repeat (case_decide; simpl; rewrite ?filter_cons, ?filter_nil; simpl); try done; lia.
Qed.

(** C9. Adjusting the viewport is best effort: whether the map widget
    takes the call or throws, the centering effect of the two map
    components, the viewport effect of the enhanced map and its timer
    return normally and leave the markers as they were; when the widget
    throws, what the map shows is as it was too. *)
Theorem C9_viewport_is_best_effort w e selectedTrip bounds s :
  (outcome (Presenter.center_effect w s) = Returned tt
   ∧ Presenter.markers (final (Presenter.center_effect w s)) = Presenter.markers s)
  ∧ (outcome (Presenter.viewport_effect selectedTrip w s) = Returned tt
     ∧ Presenter.markers (final (Presenter.viewport_effect selectedTrip w s))
       = Presenter.markers s)
  ∧ (outcome (Presenter.fitBounds_timer bounds w s) = Returned tt
     ∧ Presenter.markers (final (Presenter.fitBounds_timer bounds w s))
       = Presenter.markers s)
  ∧ (outcome (Presenter.run_timer w s) = Returned tt
     ∧ Presenter.markers (final (Presenter.run_timer w s)) = Presenter.markers s)
  ∧ final (Presenter.center_effect (Presenter.throws e) s) = s
  ∧ Presenter.shown (final (Presenter.viewport_effect selectedTrip (Presenter.throws e) s))
    = Presenter.shown s
  ∧ final (Presenter.fitBounds_timer bounds (Presenter.throws e) s) = s
  ∧ Presenter.shown (final (Presenter.run_timer (Presenter.throws e) s))
    = Presenter.shown s.
Proof.
  destruct s as [c n dl pl up mr sh tm].
  unfold Presenter.center_effect, Presenter.viewport_effect, Presenter.run_timer,
    Presenter.fitBounds_timer, Presenter.setView, Presenter.fitBounds,
    Presenter.markers.
  fx. simpl.
  split_and!;
    destruct up as [pos|], mr, w as [|e'], selectedTrip as [t|], tm as [|b tm];
    simpl; try destruct (Presenter.endpoints t); simpl; done.
Qed.

(** A widget that throws while the map centers on the user: nothing
    escapes, a warning is logged, the marker of D stays. *)
Example failed_centering :
  let res := Presenter.viewport_effect None (Presenter.throws "Map container not found")
               Scenario.map_state in
  outcome res = Returned tt
  ∧ trace res = [console_warn "Map update error:"]
  ∧ final res = Scenario.map_state.
Proof. vm_compute. done. Qed.

End PresenterFacts.

(* ================================================================== *)
(** * Facts: the Share Location button                                 *)
(* ================================================================== *)

Module ShareFacts.
Import Fx Page ShareButton.


Lemma callback_of_cleared w p :
  Device.callback_of w
    (set_watches (filter (λ x, x.1 ≠ w) (watches p)) (next_watch p) p) = None.
Proof.
  unfold Device.callback_of. simpl.
  destruct (list_find _ _) as [[i x]|] eqn:Hf; [|done].
  apply list_find_Some in Hf as (Hi & Hx & _).
  apply list_elem_of_lookup_2, list_elem_of_filter in Hi as [Hne _]. done.
Qed.

(** What a start does, by its guards. *)
Lemma start_final d nav u p :
  final (startLocationSharing d nav u p) =
  if guards_pass d nav u
  then set_locationWatchId (Some (next_watch p))
         (set_watches (watches p ++ [(next_watch p, callback_for d u)])
            (next_watch p + 1) (set_isSharing true p))
  else p.
Proof.
  destruct p, d; unfold startLocationSharing, guards_pass,
    DriverDashboard.startLocationSharing, DriverDashboard002.startLocationSharing,
    PassengerDashboard.startLocationSharing;
    destruct (geolocation nav), (isSecureContext nav), (truthy_id u); reflexivity.
Qed.

Lemma stop_final p :
  final (stopLocationSharing p) =
  match locationWatchId p with
  | Some w =>
      if decide (w ≠ 0)
      then set_isSharing false
             (set_locationWatchId None
                (set_watches (filter (λ x, x.1 ≠ w) (watches p)) (next_watch p) p))
      else set_isSharing false p
  | None => set_isSharing false p
  end.
Proof.
  destruct p as [d ws n [w|] sh ub]; unfold stopLocationSharing; fx; simpl;
    [destruct (decide (w ≠ 0))|]; reflexivity.
Qed.

(** A reported position or error touches neither the watches nor the
    stored id, and can only clear [isSharing]. *)
Lemma report_keeps_watches w at_ r p :
  let q := final (Device.report w at_ r p) in
  watches q = watches p ∧ next_watch q = next_watch p
  ∧ locationWatchId q = locationWatchId p
  ∧ (isSharing q = true → isSharing p = true).
Proof.
  unfold Device.report. fx. simpl. destruct (Device.callback_of w p) as [cb|];
    [|done].
  destruct p, cb, r as [st|m]; simpl; try done;
    destruct profile_user_id || destruct user_id; simpl; done.
Qed.

Lemma report_error_keeps_watches w p :
  let q := final (report_error w p) in
  watches q = watches p ∧ next_watch q = next_watch p
  ∧ locationWatchId q = locationWatchId p
  ∧ (isSharing q = true → isSharing p = true).
Proof.
  unfold report_error. fx. simpl. destruct (Device.callback_of w p); [|done].
  destruct p. simpl. done.
Qed.

Lemma onClick_final d nav u p :
  final (onClick d nav u p) =
  if isSharing p then final (stopLocationSharing p)
  else final (startLocationSharing d nav u p).
Proof. unfold onClick. fx. simpl. by destruct (isSharing p). Qed.

Lemma consistent_same_watches p q :
  watches q = watches p → next_watch q = next_watch p →
  locationWatchId q = locationWatchId p →
  (isSharing q = true → isSharing p = true) →
  consistent p → consistent q.
Proof.
  intros Hw Hn Hh Hs [H1 H2 H3 H4 H5].
  split; rewrite ?Hw, ?Hn, ?Hh; auto.
Qed.

Lemma consistent_stop p : consistent p → consistent (final (stopLocationSharing p)).
Proof.
  intros Hp. rewrite stop_final.
  assert (Hoff : consistent (set_isSharing false p)).
  { apply (consistent_same_watches p); auto. by destruct p. }
  destruct (locationWatchId p) as [w|] eqn:Hh; [|done].
  destruct (decide (w ≠ 0)) as [Hw0|]; [|done].
  destruct Hp as [H1 H2 H3 H4 H5]. destruct p as [d ws n h sh ub]. simpl in *.
  assert (Hsub : (filter (λ x : Z * callback, x.1 ≠ w) ws).*1 `sublist_of` ws.*1)
    by apply fmap_sublist, sublist_filter.
  split; simpl; try done.
  - intros x Hx. apply H2. by eapply elem_of_sublist.
  - by eapply sublist_NoDup.
Qed.

Lemma consistent_start d nav u p :
  consistent p → consistent (final (startLocationSharing d nav u p)).
Proof.
  intros Hp. rewrite start_final. destruct (guards_pass d nav u); [|done].
  destruct Hp as [H1 H2 H3 H4 H5]. destruct p as [db ws n h sh ub]. simpl in *.
  split; simpl.
  - lia.
  - intros w. rewrite fmap_app, elem_of_app. simpl. rewrite list_elem_of_singleton.
    intros [Hw| ->]; [specialize (H2 w Hw)|]; lia.
  - rewrite fmap_app. apply NoDup_app. split_and!; [done| |apply NoDup_singleton].
    intros w Hw ->%list_elem_of_singleton. specialize (H2 n Hw). lia.
  - intros w [= <-]. done.
  - intros _. exists n. split; [done|]. rewrite fmap_app, elem_of_app. right.
    by apply list_elem_of_singleton.
Qed.

Lemma consistent_handle d i p : consistent p → consistent (final (handle d i p)).
Proof.
  intros Hp. destruct i as [nav u|w at_ r|w]; cbn [handle].
  - rewrite onClick_final. destruct (isSharing p);
      auto using consistent_stop, consistent_start.
  - destruct (report_keeps_watches w at_ r p) as (? & ? & ? & ?).
    by apply (consistent_same_watches p).
  - destruct (report_error_keeps_watches w p) as (? & ? & ? & ?).
    by apply (consistent_same_watches p).
Qed.

(** X1. Whatever is clicked and whatever the browser reports, in any
    order, the page stays consistent: watch ids are positive and
    distinct, and while the page shows sharing as on, the id kept in
    [window.locationWatchId] is that of a registered watch. *)
Theorem X1_page_stays_consistent d inputs p :
  consistent p → consistent (run d inputs p).
Proof.
  unfold run. revert p. induction inputs as [|i inputs IH]; intros p Hp; [done|].
  simpl. apply IH. by apply consistent_handle.
Qed.

Lemma fresh_page_consistent : consistent Scenario.fresh_page.
Proof.
  split; simpl; try done.
  - intros w Hw. by apply elem_of_nil in Hw.
  - apply NoDup_nil_2.
Qed.

Lemma X1_page_stays_consistent_witness :
  consistent
    (run driver_002
       [click Scenario.https (Some "driver-1");
        position 1 Scenario.here Scenario.denied;
        click Scenario.https (Some "driver-1");
        click Scenario.https (Some "driver-1")]
       Scenario.fresh_page).
Proof. apply X1_page_stays_consistent. apply fresh_page_consistent. Defined.

(** X2. Stopping stops: once [stopLocationSharing] has cleared the
    watch whose id was stored, a position reported to that id makes no
    request and changes nothing. *)
Theorem X2_no_write_after_stop w at_ r p :
  locationWatchId p = Some w → w ≠ 0 →
  Device.report w at_ r (final (stopLocationSharing p))
  = Run (final (stopLocationSharing p)) [] (Returned tt).
Proof.
  intros Hh Hw. rewrite stop_final, Hh. destruct (decide (w ≠ 0)); [|done].
  unfold Device.report. fx. simpl.
  assert (Hc : Device.callback_of w
            (set_isSharing false
               (set_locationWatchId None
                  (set_watches (filter (λ x, x.1 ≠ w) (watches p)) (next_watch p) p)))
          = None).
  { rewrite <- (callback_of_cleared w p). by destruct p. }
  by rewrite Hc.
Qed.

Lemma X2_no_write_after_stop_witness :
  requests (trace (Device.report 1 Scenario.there (Store.Accepts Scenario.stamp2)
                     (final (stopLocationSharing Scenario.sharing_page)))) = [].
Proof.
  rewrite (X2_no_write_after_stop 1 Scenario.there (Store.Accepts Scenario.stamp2)
             Scenario.sharing_page eq_refl ltac:(lia)).
  reflexivity.
Defined.



Lemma handle_returns d i p : outcome (handle d i p) = Returned tt.
Proof.
  destruct i as [nav u|w at_ r|w]; cbn [handle].
  - unfold onClick. fx. simpl. destruct (isSharing p).
    + destruct p as [db ws n [h|] sh ub]; unfold stopLocationSharing; fx; simpl;
        [destruct (decide (h ≠ 0))|]; reflexivity.
    + destruct d; unfold startLocationSharing, DriverDashboard.startLocationSharing,
        DriverDashboard002.startLocationSharing,
        PassengerDashboard.startLocationSharing;
        destruct (geolocation nav), (isSecureContext nav), (truthy_id u); reflexivity.
  - unfold Device.report. fx. simpl. destruct (Device.callback_of w p) as [cb|];
      [|done].
    destruct p, cb, r as [st|m]; simpl; try done;
      destruct profile_user_id || destruct user_id; simpl; done.
  - unfold report_error. fx. simpl. by destruct (Device.callback_of w p).
Qed.

Lemma session_cons d i inputs p :
  session d (i :: inputs) p =
  Run (final (session d inputs (final (handle d i p))))
      (trace (handle d i p) ++ trace (session d inputs (final (handle d i p))))
      (outcome (session d inputs (final (handle d i p)))).
Proof.
  cbn [session]. fx. simpl. by rewrite (handle_returns d i p).
Qed.

(** The session ends in the page [run] computes. *)
Lemma session_final d inputs p : final (session d inputs p) = run d inputs p.
Proof.
  revert p. induction inputs as [|i inputs IH]; intros p; [done|].
  rewrite session_cons. simpl. apply IH.
Qed.

Lemma requests_app tr1 tr2 : requests (tr1 ++ tr2) = requests tr1 ++ requests tr2.
Proof. unfold requests. apply omap_app. Qed.

(** What a single input asks of the store. *)
Lemma handle_requests d i p :
  requests (trace (handle d i p)) =
  match i with
  | position w at_ r =>
      match Device.callback_of w p with
      | Some (upsert_driver u) => [Store.UpsertDriverLocation (values_of u at_)]
      | Some (insert_driver u) =>
          [Store.InsertLocation Store.driver_locations_t (values_of u at_)]
      | Some (insert_passenger u) =>
          [Store.InsertLocation Store.passenger_locations_t (values_of u at_)]
      | None => []
      end
  | _ => []
  end.
Proof.
  destruct i as [nav u|w at_ r|w]; cbn [handle].
  - unfold onClick. fx. simpl. destruct (isSharing p).
    + destruct p as [db ws n [h|] sh ub]; unfold stopLocationSharing; fx; simpl;
        [destruct (decide (h ≠ 0))|]; reflexivity.
    + destruct d; unfold startLocationSharing, DriverDashboard.startLocationSharing,
        DriverDashboard002.startLocationSharing,
        PassengerDashboard.startLocationSharing;
        destruct (geolocation nav), (isSecureContext nav), (truthy_id u); reflexivity.
  - unfold Device.report. fx. simpl. destruct (Device.callback_of w p) as [cb|];
      [|done].
    destruct p, cb, r as [st|m]; simpl; try done;
      destruct profile_user_id || destruct user_id; simpl; done.
  - unfold report_error. fx. simpl. by destruct (Device.callback_of w p).
Qed.

Lemma all_signed_handle d i p :
  d ≠ driver_pages → all_signed p → all_signed (final (handle d i p)).
Proof.
  intros Hd Hp. destruct i as [nav u|w at_ r|w]; cbn [handle].
  - rewrite onClick_final. destruct (isSharing p).
    + rewrite stop_final. destruct (locationWatchId p) as [h|];
        [destruct (decide (h ≠ 0))|]; destruct p; try done.
      intros x [_ Hx]%list_elem_of_filter. by apply Hp.
    + rewrite start_final. destruct (guards_pass d nav u) eqn:Hg; [|done].
      destruct p. intros x. simpl. rewrite elem_of_app, list_elem_of_singleton.
      intros [Hx| ->]; [by apply Hp|]. simpl.
      destruct d; [done|..]; simpl in *;
        by destruct (geolocation nav), (isSecureContext nav), (truthy_id u).
  - destruct (report_keeps_watches w at_ r p) as (Hw & _). intros x.
    rewrite Hw. apply Hp.
  - destruct (report_error_keeps_watches w p) as (Hw & _). intros x.
    rewrite Hw. apply Hp.
Qed.

Lemma callback_of_elem w p cb :
  Device.callback_of w p = Some cb → (w, cb) ∈ watches p.
Proof.
  unfold Device.callback_of.
  destruct (list_find _ _) as [[i [w' cb']]|] eqn:Hf; [|done].
  intros [= <-]. apply list_find_Some in Hf as (Hi & Hx & _). simpl in *. subst w'.
  by eapply list_elem_of_lookup_2.
Qed.

(** X4. No anonymous rows from the later dashboards: on the dashboards of
    part_002 and part_003, whatever is clicked and reported, every
    request made to the store is an insert of a location row under a
    user id that is set. *)
Theorem X4_every_write_is_signed d inputs p :
  d ≠ driver_pages → (∀ w, w ∈ watches p → signed w.2) →
  Forall signed_insert (requests (trace (session d inputs p))).
Proof.
  intros Hd. revert p. induction inputs as [|i inputs IH]; intros p Hp.
  - constructor.
  - rewrite session_cons. simpl. rewrite requests_app. apply Forall_app. split.
    + rewrite handle_requests. destruct i as [nav u|w at_ r|w]; try constructor.
      destruct (Device.callback_of w p) as [cb|] eqn:Hc; [|constructor].
      apply callback_of_elem, Hp in Hc. simpl in Hc.
      destruct cb; simpl in Hc; [done|..]; by repeat constructor.
    + apply IH. by apply all_signed_handle.
Qed.

Lemma X4_every_write_is_signed_witness :
  Forall signed_insert
    (requests (trace (session driver_002
                        [click Scenario.https (Some "driver-1");
                         position 1 Scenario.here Scenario.denied;
                         position 1 Scenario.there (Store.Accepts Scenario.stamp2)]
                        Scenario.fresh_page))).
Proof.
  apply X4_every_write_is_signed; [done|].
  intros w Hw. by apply elem_of_nil in Hw.
Defined.

End ShareFacts.

(* ================================================================== *)
(** * Facts: from a reported position to the map                       *)
(* ================================================================== *)

Module RoundTripFacts.
Import Fx Page Loc LocFacts.

(** The three fetches give the latest row per actor (for the proofs
    below). *)
Lemma fetch_enhanced_latest rows :
  latest_per_actor rows (fetchDriverLocations_enhanced rows).
Proof.
  apply (latest_per_actor_perm rows (order_desc rows)); [apply order_desc_perm|].
  apply latest_first_seen_sorted, order_desc_sorted.
Qed.

Lemma fetch_map_enhanced rows :
  fetchDriverLocations_map rows = fetchDriverLocations_enhanced rows.
Proof. apply latest_replace_sorted, order_desc_sorted. Qed.

(** The latest row of an actor is the one shown when it is strictly
    later than the actor's other rows. *)
Lemma strictly_latest_shown rows sample shown :
  latest_per_actor (rows ++ [sample]) shown →
  (∀ r, r ∈ rows → actor_id r = actor_id sample → updated_at r < updated_at sample) →
  sample ∈ shown ∧ ∀ r, r ∈ shown → actor_id r = actor_id sample → r = sample.
Proof.
  intros [Hnd Hact Hin Hmax] Hlt.
  assert (Huniq : ∀ r, r ∈ shown → actor_id r = actor_id sample → r = sample).
  { intros r Hr Ha. pose proof (Hin r Hr) as Hrow.
    apply elem_of_app in Hrow as [Hrow| ->%list_elem_of_singleton]; [|done].
    specialize (Hlt r Hrow Ha).
    assert (updated_at sample ≤ updated_at r); [|lia].
    apply Hmax; [done| |done]. apply elem_of_app. right.
    by apply list_elem_of_singleton. }
  split; [|done].
  assert (Ha : actor_id sample ∈ actor_id <$> shown).
  { apply Hact, list_elem_of_fmap_2, elem_of_app. right.
    by apply list_elem_of_singleton. }
  apply list_elem_of_fmap in Ha as (r & Ha & Hr).
  by rewrite <- (Huniq r Hr (eq_sym Ha)).
Qed.

(** X5. From the dashboard to the map: a sample of part_002 that the
    store accepts with a timestamp later than the driver's earlier rows
    is the one row both map components show for that driver, with the
    reported coordinates. *)
Theorem X5_accepted_sample_is_shown a at_ st p :
  (∀ r, r ∈ Store.driver_locations (db p) → actor_id r = a →
        updated_at r < Store.now st) →
  let rows := Store.driver_locations
                (db (final (DriverDashboard002.updateLocation (Some a) at_
                              (Store.Accepts st) p))) in
  let sample := Store.new_location st a (values_of (Some a) at_) in
  latitude sample = coords_latitude at_ ∧ longitude sample = coords_longitude at_
  ∧ sample ∈ fetchDriverLocations_enhanced rows
  ∧ sample ∈ fetchDriverLocations_map rows
  ∧ (∀ r, r ∈ fetchDriverLocations_enhanced rows → actor_id r = a → r = sample)
  ∧ (∀ r, r ∈ fetchDriverLocations_map rows → actor_id r = a → r = sample).
Proof.
  intros Hlt. cbv zeta.
  rewrite AppendFacts.driver_insert_db, AppendFacts.exec_insert_location. simpl.
  rewrite fetch_map_enhanced.
  destruct (strictly_latest_shown (Store.driver_locations (db p))
              (Store.new_location st a (values_of (Some a) at_))
              (fetchDriverLocations_enhanced
                 (Store.driver_locations (db p)
                  ++ [Store.new_location st a (values_of (Some a) at_)])))
    as [Hin Huniq]; [apply fetch_enhanced_latest|done|].
  split_and!; done.
Qed.

Lemma X5_accepted_sample_is_shown_witness :
  Store.new_location Scenario.stamp2 "driver-1"
    (values_of (Some "driver-1") Scenario.there)
  ∈ fetchDriverLocations_enhanced
      (Store.driver_locations
         (db (final (DriverDashboard002.updateLocation (Some "driver-1") Scenario.there
                       (Store.Accepts Scenario.stamp2)
                       Scenario.page_after_one_insert)))).
Proof.
  refine (proj1 (proj2 (proj2 (X5_accepted_sample_is_shown "driver-1" Scenario.there
                                 Scenario.stamp2 Scenario.page_after_one_insert _)))).
  intros r Hr _.
  change (Store.driver_locations (db Scenario.page_after_one_insert))
    with [Store.new_location Scenario.stamp1 "driver-1"
            (values_of (Some "driver-1") Scenario.here)] in Hr.
  apply list_elem_of_singleton in Hr as ->. simpl. lia.
Defined.

End RoundTripFacts.

(* ================================================================== *)
(** * Facts: more of the booking pages                                 *)
(* ================================================================== *)

Module BookingMoreFacts.
Import Fx.

Lemma cancel_bookings bookingId r p :
  Store.bookings (Page.db (final (PassengerBookings.cancelBooking bookingId r p))) =
  match r with
  | Store.Accepts st =>
      (λ b, if decide (Booking.id b = bookingId)
            then Booking.with_status booking_status.cancelled (Store.now st) b
            else b) <$> Store.bookings (Page.db p)
  | Store.Rejects _ => Store.bookings (Page.db p)
  end.
Proof. destruct p, r; reflexivity. Qed.

(** X7. Cancelling touches one thing only: after [cancelBooking] the
    table has the same bookings in the same order, each with the trip,
    passenger, seats and message it had; if the store accepted, the
    bookings with that id are cancelled whatever their status was, and
    every other booking is exactly as it was; if the store refused,
    nothing changed and the failure is shown. *)
Theorem X7_cancel_changes_status_only bookingId r p :
  let res := PassengerBookings.cancelBooking bookingId r p in
  let before := Store.bookings (Page.db p) in
  let after := Store.bookings (Page.db (final res)) in
  outcome res = Returned tt
  ∧ Booking.id <$> after = Booking.id <$> before
  ∧ (∀ i b', after !! i = Some b' →
       ∃ b, before !! i = Some b
            ∧ Booking.trip_id b' = Booking.trip_id b
            ∧ Booking.passenger_id b' = Booking.passenger_id b
            ∧ Booking.seats_requested b' = Booking.seats_requested b
            ∧ Booking.message b' = Booking.message b
            ∧ (Booking.id b ≠ bookingId → b' = b)
            ∧ (Booking.id b = bookingId →
               match r with
               | Store.Accepts _ => Booking.status b' = booking_status.cancelled
               | Store.Rejects _ => b' = b
               end))
  ∧ (∀ m, r = Store.Rejects m →
       Page.db (final res) = Page.db p
       ∧ trace res =
           [Request (Store.UpdateBookingStatus bookingId booking_status.cancelled);
            toast_error "Failed to cancel booking"]).
Proof.
  cbv zeta. rewrite cancel_bookings. split_and!.
  - by destruct p, r.
  - destruct r as [st|m]; [|done]. rewrite <- list_fmap_compose.
    apply list_fmap_ext. intros i b _. simpl. by case_decide.
  - intros i b' Hi. destruct r as [st|m].
    + rewrite list_lookup_fmap in Hi.
      destruct (Store.bookings (Page.db p) !! i) as [b|] eqn:Hb; [|done].
      injection Hi as <-. exists b. case_decide; split_and!; try done.
    + exists b'. split_and!; done.
  - intros m ->. by destruct p.
Qed.

(** X8. The last decision wins: no handler looks at the status a
    booking has.  A driver's acceptance after the passenger's
    cancellation leaves the bookings exactly as the acceptance alone
    would, and a cancellation after an acceptance as the cancellation
    alone. *)
Theorem X8_last_status_update_wins bookingId st1 st2 p :
  Store.bookings
    (Page.db (final ((PassengerBookings.cancelBooking bookingId (Store.Accepts st1) ;;
                      DriverDashboard002.updateBookingStatus bookingId
                        booking_status.accepted (Store.Accepts st2)) p)))
  = Store.bookings
      (Page.db (final (DriverDashboard002.updateBookingStatus bookingId
                         booking_status.accepted (Store.Accepts st2) p)))
  ∧ Store.bookings
      (Page.db (final ((DriverDashboard002.updateBookingStatus bookingId
                          booking_status.accepted (Store.Accepts st1) ;;
                        PassengerBookings.cancelBooking bookingId (Store.Accepts st2)) p)))
    = Store.bookings
        (Page.db (final (PassengerBookings.cancelBooking bookingId
                           (Store.Accepts st2) p))).
Proof.
  destruct p as [[dl pl bs ts] ws n h sh ub]. fx. simpl.
  split; rewrite <- list_fmap_compose; apply list_fmap_ext; intros i b _; simpl;
    repeat case_decide; simpl in *; done.
Qed.

Lemma X7_cancel_changes_status_only_witness :
  ∃ b', Store.bookings
          (Page.db (final (PassengerBookings.cancelBooking "booking-1"
                             (Store.Accepts Scenario.stamp2)
                             Scenario.page_with_booking))) !! 0%nat = Some b'
        ∧ Booking.status b' = booking_status.cancelled
        ∧ Booking.seats_requested b' = 2.
Proof.
  destruct (X7_cancel_changes_status_only "booking-1" (Store.Accepts Scenario.stamp2)
              Scenario.page_with_booking) as (_ & _ & H & _).
  exists (Booking.with_status booking_status.cancelled 2000000 Scenario.booking1).
  split; [reflexivity|].
  destruct (H 0%nat
              (Booking.with_status booking_status.cancelled 2000000 Scenario.booking1)
              eq_refl) as (b & Hb & _ & _ & Hs & _ & _ & Hc).
  injection Hb as <-. split; [by apply Hc|]. by rewrite Hs.
Defined.

Lemma bind_get {S A} (k : S → M S A) (s : S) : (get ≫= k) s = k s s.
Proof.
  unfold mbind, M_bind, bind, get. simpl. by destruct (k s s).
Qed.

Lemma submit_checks user client_now r s :
  TripDetails.handleBookingSubmit user client_now r s =
  match user, TripDetails.trip s with
  | Some user_id, Some t =>
      if decide (Trip.driver_id t = user_id)
      then emit (toast_error "You can't book your own trip") s
      else if decide (Trip.available_seats t
                      < TripDetails.seats (TripDetails.bookingForm s))
      then emit (toast_error "Not enough seats available") s
      else TripDetailsExisting.submit_past_checks t user_id client_now r s s
  | _, _ => emit (toast_error "You must be logged in to book a trip") s
  end.
Proof.
  unfold TripDetails.handleBookingSubmit. rewrite bind_get.
  destruct user as [u|], (TripDetails.trip s) as [t|]; try reflexivity.
  by repeat case_decide.
Qed.

Lemma submit_accepted t user_id client_now st s :
  TripDetailsExisting.submit_past_checks t user_id client_now (Store.Accepts st) s s =
  Run (TripDetails.set_bookingLoading false
         (TripDetails.set_existingBooking
            (Some (TripDetails.temp_booking t user_id (TripDetails.bookingForm s)
                     client_now))
            (TripDetails.set_bookingForm
               {| TripDetails.seats := 1; TripDetails.message := "" |}
               (TripDetails.set_showBookingForm false
                  (TripDetails.set_db
                     (Store.set_bookings
                        (Store.bookings (TripDetails.db s)
                         ++ [Store.new_booking st
                               (TripDetails.booking_values t user_id
                                  (TripDetails.bookingForm s))])
                        (TripDetails.db s))
                     (TripDetails.set_bookingLoading true s))))))
      [Request (Store.InsertBooking
                  (TripDetails.booking_values t user_id (TripDetails.bookingForm s)));
       toast_success "Booking request sent successfully!"]
      (Returned tt).
Proof. destruct s. reflexivity. Qed.

Lemma submit_refused t user_id client_now m s :
  TripDetailsExisting.submit_past_checks t user_id client_now (Store.Rejects m) s s =
  Run (TripDetails.set_bookingLoading false s)
      [Request (Store.InsertBooking
                  (TripDetails.booking_values t user_id (TripDetails.bookingForm s)));
       toast_error (message_or m "Failed to send booking request")]
      (Returned tt).
Proof. destruct s. reflexivity. Qed.

(** What [handleBookingSubmit] asks of the store. *)
Lemma submit_requests user client_now r s :
  requests (trace (TripDetails.handleBookingSubmit user client_now r s)) =
  match user, TripDetails.trip s with
  | Some user_id, Some t =>
      if decide (Trip.driver_id t = user_id) then []
      else if decide (Trip.available_seats t
                      < TripDetails.seats (TripDetails.bookingForm s)) then []
      else [Store.InsertBooking
              (TripDetails.booking_values t user_id (TripDetails.bookingForm s))]
  | _, _ => []
  end.
Proof.
  rewrite submit_checks.
  destruct user as [u|], (TripDetails.trip s) as [t|]; try reflexivity.
  repeat case_decide; try reflexivity.
  destruct r; [by rewrite submit_accepted|by rewrite submit_refused].
Qed.

(** X9. What is never asked for: every request [handleBookingSubmit]
    makes is one insert of a [pending] booking on the loaded trip, for
    the signed-in user, who is not the trip's driver, and for no more
    seats than the trip has left; and it makes at most one request. *)
Theorem X9_only_valid_bookings_are_requested user client_now r s q :
  q ∈ requests (trace (TripDetails.handleBookingSubmit user client_now r s)) →
  ∃ t user_id v,
    TripDetails.trip s = Some t ∧ user = Some user_id
    ∧ q = Store.InsertBooking v
    ∧ requests (trace (TripDetails.handleBookingSubmit user client_now r s)) = [q]
    ∧ Store.v_booking_trip v = Trip.id t
    ∧ Store.v_passenger_id v = user_id
    ∧ user_id ≠ Trip.driver_id t
    ∧ Store.v_seats_requested v ≤ Trip.available_seats t
    ∧ Store.v_booking_status v = booking_status.pending.
Proof.
  rewrite submit_requests.
  destruct user as [u|], (TripDetails.trip s) as [t|];
    try (by intros ?%elem_of_nil).
  destruct (decide (Trip.driver_id t = u)) as [|Hd]; [by intros ?%elem_of_nil|].
  destruct (decide (Trip.available_seats t < _)) as [|Hs]; [by intros ?%elem_of_nil|].
  intros ->%list_elem_of_singleton. eexists t, u, _.
  split_and!; try done. simpl. lia.
Qed.

Lemma X9_only_valid_bookings_are_requested_witness :
  ∃ v, Store.v_seats_requested v ≤ 3
       ∧ Store.v_booking_status v = booking_status.pending
       ∧ requests (trace (TripDetails.handleBookingSubmit (Some "passenger-1") 0
                            (Store.Accepts Scenario.stamp1) (Scenario.details 2)))
         = [Store.InsertBooking v].
Proof.
  destruct (X9_only_valid_bookings_are_requested (Some "passenger-1") 0
              (Store.Accepts Scenario.stamp1) (Scenario.details 2)
              (Store.InsertBooking
                 (TripDetails.booking_values Scenario.tripAB "passenger-1"
                    (TripDetails.bookingForm (Scenario.details 2)))))
    as (t & u & v & Ht & _ & Hq & Hreq & _ & _ & _ & Hseats & Hst).
  - vm_compute. left.
  - injection Ht as <-. exists v. split_and!; [done|done|].
    rewrite Hreq. by rewrite Hq.
Defined.

Lemma submit_accepted_bookings user_id client_now st s t :
  TripDetails.trip s = Some t → Trip.driver_id t ≠ user_id →
  TripDetails.seats (TripDetails.bookingForm s) ≤ Trip.available_seats t →
  Store.bookings
    (TripDetails.db (final (TripDetails.handleBookingSubmit (Some user_id) client_now
                              (Store.Accepts st) s)))
  = Store.bookings (TripDetails.db s)
    ++ [Store.new_booking st
          (TripDetails.booking_values t user_id (TripDetails.bookingForm s))].
Proof.
  intros Ht Hd Hs. rewrite submit_checks, Ht.
  rewrite decide_False by done. rewrite decide_False by lia.
  rewrite submit_accepted. reflexivity.
Qed.

(** X10. A request that passes the checks and is accepted: the booking
    is the new last row, [pending], with the seats asked for; the form
    is hidden and reset; and [canBook] is then false, so the form is not
    rendered again for that user. *)
Theorem X10_accepted_request_closes_the_form user_id client_now st s t :
  TripDetails.trip s = Some t → Trip.driver_id t ≠ user_id →
  TripDetails.seats (TripDetails.bookingForm s) ≤ Trip.available_seats t →
  let res := TripDetails.handleBookingSubmit (Some user_id) client_now
               (Store.Accepts st) s in
  let v := TripDetails.booking_values t user_id (TripDetails.bookingForm s) in
  outcome res = Returned tt
  ∧ trace res = [Request (Store.InsertBooking v);
                 toast_success "Booking request sent successfully!"]
  ∧ Store.bookings (TripDetails.db (final res))
    = Store.bookings (TripDetails.db s) ++ [Store.new_booking st v]
  ∧ Booking.status (Store.new_booking st v) = booking_status.pending
  ∧ Booking.seats_requested (Store.new_booking st v)
    = TripDetails.seats (TripDetails.bookingForm s)
  ∧ TripDetails.showBookingForm (final res) = false
  ∧ TripDetails.bookingForm (final res)
    = {| TripDetails.seats := 1; TripDetails.message := "" |}
  ∧ TripDetails.bookingLoading (final res) = false
  ∧ TripDetails.canBook (Some user_id) (final res) t = false.
Proof.
  intros Ht Hd Hs. cbv zeta. rewrite submit_checks, Ht.
  rewrite decide_False by done. rewrite decide_False by lia.
  rewrite submit_accepted. simpl. split_and!; try done.
  unfold TripDetails.canBook. simpl. by rewrite !andb_false_r.
Qed.

Lemma X10_accepted_request_closes_the_form_witness :
  TripDetails.canBook (Some "passenger-1")
    (final (TripDetails.handleBookingSubmit (Some "passenger-1") 0
              (Store.Accepts Scenario.stamp1) (Scenario.details 2)))
    Scenario.tripAB = false.
Proof.
  apply (X10_accepted_request_closes_the_form "passenger-1" 0 Scenario.stamp1
           (Scenario.details 2) Scenario.tripAB eq_refl); [done|simpl; lia].
Defined.

(** X11. A request the store refuses: nothing is stored, the store's
    message is shown (or "Failed to send booking request" when it has
    none), the error does not escape, the form stays as it was and the
    loading flag is cleared. *)
Theorem X11_refused_request_keeps_the_form user_id client_now m s t :
  TripDetails.trip s = Some t → Trip.driver_id t ≠ user_id →
  TripDetails.seats (TripDetails.bookingForm s) ≤ Trip.available_seats t →
  let res := TripDetails.handleBookingSubmit (Some user_id) client_now
               (Store.Rejects m) s in
  outcome res = Returned tt
  ∧ trace res =
      [Request (Store.InsertBooking
                  (TripDetails.booking_values t user_id (TripDetails.bookingForm s)));
       toast_error (if decide (m = "") then "Failed to send booking request" else m)]
  ∧ final res = TripDetails.set_bookingLoading false s.
Proof.
  intros Ht Hd Hs. cbv zeta. rewrite submit_checks, Ht.
  rewrite decide_False by done. rewrite decide_False by lia.
  rewrite submit_refused. done.
Qed.

Lemma X11_refused_request_keeps_the_form_witness :
  Store.bookings
    (TripDetails.db (final (TripDetails.handleBookingSubmit (Some "passenger-1") 0
                              (Store.Rejects "refused") (Scenario.details 2)))) = [].
Proof.
  destruct (X11_refused_request_keeps_the_form "passenger-1" 0 "refused"
              (Scenario.details 2) Scenario.tripAB eq_refl) as (_ & _ & ->);
    [done|simpl; lia|reflexivity].
Defined.

Lemma sorted_lookup {A} (R : relation A) (l : list A) i j x y :
  StronglySorted R l → l !! i = Some x → l !! j = Some y → (i < j)%nat → R x y.
Proof.
  intros Hs. revert i j. induction Hs as [|z l Hs IH Hall]; intros i j Hi Hj Hlt.
  - done.
  - destruct i as [|i], j as [|j]; simpl in *; try lia.
    + injection Hi as ->. apply (proj1 (Forall_forall _ _) Hall).
      by eapply list_elem_of_lookup_2.
    + apply (IH i j); [done|done|lia].
Qed.

#[global] Instance newer_or_equal_trans : Transitive TripDetailsExisting.newer_or_equal.
Proof. unfold TripDetailsExisting.newer_or_equal. intros x y z ??. lia. Qed.

#[global] Instance newer_or_equal_total : Total TripDetailsExisting.newer_or_equal.
Proof. unfold TripDetailsExisting.newer_or_equal. intros x y. lia. Qed.

Lemma own_requests_elem id user_id bookings b :
  b ∈ TripDetailsExisting.own_requests id user_id bookings ↔
  b ∈ bookings ∧ Booking.trip_id b = id ∧ Booking.passenger_id b = user_id.
Proof.
  unfold TripDetailsExisting.own_requests.
  rewrite merge_sort_Permutation, list_elem_of_filter. tauto.
Qed.

Lemma fetchExisting_final trip_id user_id s :
  trip_id ≠ "" →
  TripDetails.existingBooking
    (final (TripDetailsExisting.fetchExisting (Some trip_id) (Some user_id) true s))
  = snd <$> list_find TripDetailsExisting.open_request
              (TripDetailsExisting.own_requests trip_id user_id
                 (Store.bookings (TripDetails.db s))).
Proof.
  intros Hid. unfold TripDetailsExisting.fetchExisting.
  destruct (decide (trip_id = "")); [done|]. by destruct s.
Qed.

(** X12. Who may ask again: after the page has looked up the user's
    requests on the trip, [existingBooking] is empty exactly when every
    such request is rejected or cancelled; otherwise it is the newest of
    the user's pending or accepted requests on that trip. *)
Theorem X12_existing_request_is_newest_open trip_id user_id s :
  trip_id ≠ "" →
  let found := TripDetails.existingBooking
                 (final (TripDetailsExisting.fetchExisting (Some trip_id)
                           (Some user_id) true s)) in
  let own b := b ∈ Store.bookings (TripDetails.db s)
               ∧ Booking.trip_id b = trip_id ∧ Booking.passenger_id b = user_id in
  (found = None ↔ ∀ b, own b → ¬ TripDetailsExisting.open_request b)
  ∧ (∀ b, found = Some b →
       own b ∧ TripDetailsExisting.open_request b
       ∧ ∀ b', own b' → TripDetailsExisting.open_request b' →
               Booking.created_at b' ≤ Booking.created_at b).
Proof.
  intros Hid. cbv zeta. rewrite (fetchExisting_final _ _ _ Hid).
  split.
  - rewrite fmap_None, list_find_None, Forall_forall. split.
    + intros H b Hb. apply H. by apply own_requests_elem.
    + intros H b Hb. apply H. by apply own_requests_elem.
  - intros b ([i b0] & Hf & ->)%fmap_Some. simpl.
    apply list_find_Some in Hf as (Hi & Hopen & Hfirst).
    split; [|split; [done|]].
    + by eapply own_requests_elem, list_elem_of_lookup_2.
    + intros b' Hown Hopen'. apply own_requests_elem in Hown.
      apply list_elem_of_lookup in Hown as [j Hj].
      destruct (decide (j < i)%nat) as [Hlt|Hge]; [by destruct (Hfirst j b' Hj Hlt)|].
      destruct (decide (j = i)) as [->|Hne].
      * rewrite Hi in Hj. by injection Hj as ->.
      * eapply (sorted_lookup TripDetailsExisting.newer_or_equal _ i j b0 b');
          [|exact Hi|exact Hj|lia].
        apply StronglySorted_merge_sort; apply _.
Qed.

Lemma X12_existing_request_is_newest_open_witness :
  TripDetails.existingBooking
    (final (TripDetailsExisting.fetchExisting (Some "trip-1") (Some "passenger-1") true
              (Scenario.details 2))) = None.
Proof.
  apply (X12_existing_request_is_newest_open "trip-1" "passenger-1" (Scenario.details 2)
           ltac:(done)).
  intros b [Hb _]. by apply elem_of_nil in Hb.
Defined.

(** X13. Submitting and looking up again: when a request was accepted,
    the lookup on the new table finds a pending or accepted request of
    that user on the trip, so [canBook] stays false after the page
    reloads its state. *)
Theorem X13_accepted_request_is_found_again user_id client_now st s t :
  TripDetails.trip s = Some t → Trip.driver_id t ≠ user_id → Trip.id t ≠ "" →
  TripDetails.seats (TripDetails.bookingForm s) ≤ Trip.available_seats t →
  let s1 := final (TripDetails.handleBookingSubmit (Some user_id) client_now
                     (Store.Accepts st) s) in
  let s2 := final (TripDetailsExisting.fetchExisting (Some (Trip.id t))
                     (Some user_id) true s1) in
  is_Some (TripDetails.existingBooking s2)
  ∧ TripDetails.canBook (Some user_id) s2 t = false.
Proof.
  intros Ht Hd Hid Hs. cbv zeta.
  pose proof (submit_accepted_bookings user_id client_now st s t Ht Hd Hs) as Hb.
  assert (Hsome : is_Some (TripDetails.existingBooking
            (final (TripDetailsExisting.fetchExisting (Some (Trip.id t)) (Some user_id)
                      true
                      (final (TripDetails.handleBookingSubmit (Some user_id) client_now
                                (Store.Accepts st) s)))))).
  { rewrite (fetchExisting_final _ _ _ Hid), fmap_is_Some.
    eapply (list_find_elem_of _ _ (Store.new_booking st
              (TripDetails.booking_values t user_id (TripDetails.bookingForm s)))).
    - apply own_requests_elem. rewrite Hb. split; [|done].
      apply elem_of_app. right. by apply list_elem_of_singleton.
    - by left. }
  split; [done|]. unfold TripDetails.canBook.
  rewrite (bool_decide_eq_true_2 (is_Some _)) by done.
  by rewrite !andb_false_r.
Qed.

Lemma X13_accepted_request_is_found_again_witness :
  TripDetails.canBook (Some "passenger-1")
    (final (TripDetailsExisting.fetchExisting (Some "trip-1") (Some "passenger-1") true
              (final (TripDetails.handleBookingSubmit (Some "passenger-1") 0
                        (Store.Accepts Scenario.stamp1) (Scenario.details 2)))))
    Scenario.tripAB = false.
Proof.
  apply (X13_accepted_request_is_found_again "passenger-1" 0 Scenario.stamp1
           (Scenario.details 2) Scenario.tripAB eq_refl); [done|done|simpl; lia].
Defined.

End BookingMoreFacts.

Module CreateTripFacts.
Import Fx.

(** X14. Posting a trip either works or says why: [handleSubmit] never
    throws and, with a profile, leaves [loading] cleared; either the trip
    was added as the last row, the success message was shown and the page
    went to the driver dashboard, or the tables are as before, there was
    no navigation and the last thing shown is an error message.  A
    departure that is not strictly in the future, or not a date, is
    refused before anything is sent. *)
Theorem X14_trip_is_stored_or_refused Date_parse parseFloat profile formData
    client_now r s :
  let res := CreateTrip.handleSubmit Date_parse parseFloat profile formData
               client_now r s in
  let departure := Date_parse (CreateTrip.departureDate formData +:+ "T"
                               +:+ CreateTrip.departureTime formData) in
  outcome res = Returned tt
  ∧ (is_Some profile → CreateTrip.loading (final res) = false)
  ∧ ((navigate "/driver-dashboard" ∈ trace res
      ∧ toast_success "Trip created successfully!" ∈ trace res
      ∧ ∃ t, Store.trips (CreateTrip.db (final res))
             = Store.trips (CreateTrip.db s) ++ [t])
     ∨ ((navigate "/driver-dashboard" ∉ trace res)
        ∧ CreateTrip.db (final res) = CreateTrip.db s
        ∧ ∃ msg, last (trace res) = Some (toast_error msg)))
  ∧ ((∀ d, departure = Some d → d ≤ client_now) →
     requests (trace res) = []).
Proof.
  cbv zeta. unfold CreateTrip.handleSubmit.
  assert (Hno : ∀ msg : string, navigate "/driver-dashboard" ∉ [toast_error msg])
    by (by intros msg ?%list_elem_of_singleton).
  destruct s as [db ld], profile as [u|].
  2:{ split; [done|]. split; [by intros ?%is_Some_None|]. split; [|done].
      right. split; [apply Hno|]. split; [done|by eexists]. }
  destruct (Date_parse _) as [d|] eqn:Hd.
  2:{ split; [done|]. split; [done|]. split; [|done].
      right. split; [apply Hno|]. split; [done|by eexists]. }
  destruct (decide (d ≤ client_now)) as [Hle|Hgt].
  { split; [done|]. split; [done|]. split; [|done].
    right. split; [apply Hno|]. split; [done|by eexists]. }
  destruct r as [st|m].
  - split; [done|]. split; [done|]. split.
    + left. split; [|split; [|by eexists]].
      * do 2 apply list_elem_of_further. apply list_elem_of_here.
      * apply list_elem_of_further, list_elem_of_here.
    + intros H. specialize (H d eq_refl). lia.
  - split; [done|]. split; [done|]. split.
    + right. split; [|split; [by destruct db|by eexists]].
      intros Hin. repeat (apply elem_of_cons in Hin as [Hin|Hin]; [done|]).
      by apply elem_of_nil in Hin.
    + intros H. specialize (H d eq_refl). lia.
Qed.

Lemma X14_trip_is_stored_or_refused_witness :
  requests (trace (CreateTrip.handleSubmit (λ _, Some 1000) (λ _, None)
                     (Some "driver-1") Scenario.form 1000
                     (Store.Accepts Scenario.stamp1) Scenario.trip_page)) = []
  ∧ CreateTrip.loading
      (final (CreateTrip.handleSubmit (λ _, Some 1000) (λ _, None)
                (Some "driver-1") Scenario.form 1000
                (Store.Accepts Scenario.stamp1) Scenario.trip_page)) = false.
Proof.
  destruct (X14_trip_is_stored_or_refused (λ _, Some 1000) (λ _, None)
              (Some "driver-1") Scenario.form 1000 (Store.Accepts Scenario.stamp1)
              Scenario.trip_page) as (_ & Hl & _ & Hq).
  split.
  - apply Hq. intros d [= <-]. lia.
  - apply Hl. by eexists.
Defined.

End CreateTripFacts.

(* ================================================================== *)
(** * Facts: the live map                                              *)
(* ================================================================== *)

Module LiveMapFacts.
Import Fx.

(** X15. The map uploads a position only for a signed-in user with a
    trip selected: without either, the position callback records the
    position in the component, makes no request and leaves the tables
    alone. *)
Theorem X15_no_upload_without_trip_or_user user selectedTrip role newPosition
    client_now r s :
  user = None ∨ selectedTrip = None →
  let res := LiveMap.onPosition user selectedTrip role newPosition client_now r s in
  outcome res = Returned tt
  ∧ trace res = []
  ∧ LiveMap.db (final res) = LiveMap.db s
  ∧ LiveMap.userPosition (final res) = Some newPosition.
Proof.
  intros H. unfold LiveMap.onPosition. fx. simpl.
  destruct selectedTrip as [t|], user as [u|]; simpl; try done.
  by destruct H.
Qed.

Lemma X15_no_upload_without_trip_or_user_witness :
  trace (LiveMap.onPosition (Some "passenger-1") None (Some "passenger") (10, 77) 5
           (Store.Accepts Scenario.stamp1)
           {| LiveMap.db := Scenario.empty_db; LiveMap.userPosition := None |}) = [].
Proof.
  apply (X15_no_upload_without_trip_or_user (Some "passenger-1") None
           (Some "passenger") (10, 77) 5 (Store.Accepts Scenario.stamp1)
           {| LiveMap.db := Scenario.empty_db; LiveMap.userPosition := None |}).
  by right.
Defined.

(** X16. With a user and a trip, the position goes to one table, chosen
    by the role: [driver_locations] for a driver, [passenger_locations]
    for anybody else, also when the profile could not be read.  An
    accepted insert adds exactly one row there, for that user and trip,
    at the reported place and with the client's time; a refused one
    changes nothing and is only logged: no message is shown and nothing
    is thrown. *)
Theorem X16_position_goes_to_the_table_of_the_role user_id t role newPosition
    client_now r s :
  let res := LiveMap.onPosition (Some user_id) (Some t) role newPosition client_now r s in
  let table := LiveMap.table_of role in
  let v := LiveMap.location_values user_id (Some (Trip.id t)) newPosition in
  outcome res = Returned tt
  ∧ requests (trace res) = [Store.Select "profiles"; Store.InsertLocation table v]
  ∧ (∀ msg, toast_error msg ∉ trace res)
  ∧ match r with
    | Store.Accepts st =>
        LiveMap.db (final res) =
        Store.set_location_rows table
          (Store.location_rows table (LiveMap.db s)
           ++ [{| Loc.id := Store.gen_id st; Loc.actor_id := user_id;
                  Loc.trip_id := Some (Trip.id t);
                  Loc.latitude := newPosition.1; Loc.longitude := newPosition.2;
                  Loc.heading := None; Loc.speed := None;
                  Loc.updated_at := client_now |}])
          (LiveMap.db s)
    | Store.Rejects _ =>
        LiveMap.db (final res) = LiveMap.db s
        ∧ last (trace res) = Some (console_error "Error updating location:")
    end.
Proof.
  cbv zeta. unfold LiveMap.onPosition, LiveMap.updateUserLocation, LiveMap.table_of.
  fx. simpl. destruct s as [db up].
  destruct (decide (role = Some "driver")), r as [st|m]; simpl;
    (split; [done|split; [done|split; [|done]]]);
    intros msg Hin;
    repeat (apply elem_of_cons in Hin as [Hin|Hin]; [done|]);
    by apply elem_of_nil in Hin.
Qed.

(** A profile that could not be read is written as a passenger. *)
Example unknown_role_is_a_passenger :
  LiveMap.table_of None = Store.passenger_locations_t
  ∧ LiveMap.table_of (Some "driver") = Store.driver_locations_t.
Proof. done. Qed.

Lemma point_Some lat lng a b :
  Route.point lat lng = Some (a, b) ↔
  lat = Some a ∧ lng = Some b ∧ a ≠ 0 ∧ b ≠ 0.
Proof.
  unfold Route.point, Presenter.truthy. split.
  - destruct lat as [x|], lng as [y|]; simpl; repeat case_decide; simpl;
      intros [=]; by subst.
  - intros (-> & -> & Ha & Hb). simpl. by rewrite !decide_False by done.
Qed.

Lemma endpoints_points t :
  Presenter.endpoints t =
  match Route.point (Trip.start_lat t) (Trip.start_lng t),
        Route.point (Trip.dest_lat t) (Trip.dest_lng t) with
  | Some a, Some b => Some (a, b)
  | _, _ => None
  end.
Proof.
  unfold Presenter.endpoints, Route.point.
  destruct (Presenter.truthy (Trip.start_lat t)), (Presenter.truthy (Trip.start_lng t)),
    (Presenter.truthy (Trip.dest_lat t)), (Presenter.truthy (Trip.dest_lng t)); done.
Qed.

(** X17. The route line and the viewport agree: [getRouteCoordinates]
    gives both ends of the trip exactly when the viewport effect has
    bounds to fit, and then they are those bounds; it never gives more
    than two points, and a coordinate of [0] counts as missing, so a
    trip starting on the equator has no bounds and at most one point. *)
Theorem X17_route_has_the_fitted_endpoints t :
  (∀ a b, Presenter.endpoints t = Some (a, b) ↔ Route.getRouteCoordinates t = [a; b])
  ∧ (length (Route.getRouteCoordinates t) ≤ 2)%nat
  ∧ (Trip.start_lat t = Some 0 →
     Presenter.endpoints t = None
     ∧ (length (Route.getRouteCoordinates t) ≤ 1)%nat).
Proof.
  rewrite endpoints_points. unfold Route.getRouteCoordinates.
  split_and!.
  - intros a b.
    destruct (Route.point (Trip.start_lat t) _) as [x|],
      (Route.point (Trip.dest_lat t) _) as [y|]; simpl;
      (split; [intros [=]; by subst|intros [=]; by subst]).
  - destruct (Route.point (Trip.start_lat t) _), (Route.point (Trip.dest_lat t) _);
      simpl; lia.
  - intros H0.
    destruct (Route.point (Trip.start_lat t) (Trip.start_lng t)) as [[a b]|] eqn:Hp.
    + apply point_Some in Hp as (Ha & _ & Hne & _). rewrite H0 in Ha.
      injection Ha as <-. done.
    + split; [done|]. destruct (Route.point (Trip.dest_lat t) _); simpl; lia.
Qed.

Lemma X17_route_has_the_fitted_endpoints_witness :
  Route.getRouteCoordinates Scenario.tripAB = [(10, 77); (20, 78)].
Proof.
  apply (proj1 (X17_route_has_the_fitted_endpoints Scenario.tripAB)). reflexivity.
Defined.

(** X18. Mounting and unmounting the map leaves the client's channels
    as they were: on a client whose channel ids are below the next one,
    the subscription effect asks for the four lists and opens two
    channels, and its cleanup removes exactly those two; with
    [showDrivers] off the effect does nothing and returns no cleanup. *)
Theorem X18_cleanup_restores_the_channels s :
  (∀ c, c ∈ Presenter.channels s → c.1 < Presenter.next_channel s) →
  (∃ subs,
     outcome (Presenter.subscription_effect true s) = Returned (Some subs)
     ∧ requests (trace (Presenter.subscription_effect true s))
       = [Store.Select "driver_locations"; Store.Select "passenger_locations";
          Store.Select "trips"; Store.Select "profiles"]
     ∧ length (Presenter.channels (final (Presenter.subscription_effect true s)))
       = S (S (length (Presenter.channels s)))
     ∧ Presenter.channels
         (final (Presenter.cleanup subs (final (Presenter.subscription_effect true s))))
       = Presenter.channels s)
  ∧ Presenter.subscription_effect false s = Run s [] (Returned None).
Proof.
  intros Hfresh. split; [|done].
  destruct s as [c n dl pl up mr sh tm]. simpl in Hfresh.
  eexists. split; [reflexivity|]. split; [reflexivity|].
  split; [simpl; rewrite !length_app; simpl; lia|].
  rewrite PresenterFacts.cleanup_channels. simpl.
  rewrite list_filter_filter, !filter_app.
  rewrite (filter_cons _ (n, _)), (filter_cons _ (n + 1, _)), !filter_nil. simpl.
  rewrite decide_False by (intros [? ?]; done).
  rewrite decide_False by (intros [? ?]; done).
  rewrite !app_nil_r.
  induction c as [|x c IH]; [done|].
  rewrite filter_cons. simpl.
  assert (Hx : x.1 < n) by (apply Hfresh; left).
  rewrite decide_True by lia.
  f_equal. apply IH. intros y Hy. apply Hfresh. by right.
Qed.

Lemma X18_cleanup_restores_the_channels_witness :
  ∃ subs,
    outcome (Presenter.subscription_effect true Scenario.map_state)
    = Returned (Some subs)
    ∧ Presenter.channels
        (final (Presenter.cleanup subs
                  (final (Presenter.subscription_effect true Scenario.map_state))))
      = [].
Proof.
  destruct (X18_cleanup_restores_the_channels Scenario.map_state) as [(subs & H1 & _ & _ & H2) _].
  - intros c Hc. by apply elem_of_nil in Hc.
  - exists subs. split; [done|]. by rewrite H2.
Defined.

End LiveMapFacts.

(* ================================================================== *)
(** * Facts: the edge functions                                        *)
(* ================================================================== *)

Module NotificationFacts.
Import Fx Notification.

Section templates.
Variable html_created html_accepted html_rejected :
  BookingDetails → Profile.Profile → string.

(** The handler, case by case. *)
Lemma handler_run method json found driver_found mail s :
  handler html_created html_accepted html_rejected
    method json found driver_found mail s =
  if decide (method = "OPTIONS")
  then Run s [] (Returned {| status := 200; body := null; cors := true |})
  else
    match json, found, driver_found with
    | bad_json m, _, _ =>
        Run s [console_error "Error sending email:"]
            (Returned {| status := 500; body := error m; cors := true |})
    | request_body _ _, None, _ =>
        Run s [console_error "Error sending email:"]
            (Returned {| status := 500; body := error "Booking not found";
                         cors := true |})
    | request_body _ _, Some _, None =>
        Run s [console_error "Error sending email:"]
            (Returned {| status := 500; body := error "Driver not found";
                         cors := true |})
    | request_body _ type, Some b, Some d =>
        match mail with
        | delivered r =>
            Run {| outbox :=
                     outbox s
                     ++ [emailData html_created html_accepted html_rejected
                           type b d];
                   logged := logged s ++ ["Email sent successfully:"] |}
                []
                (Returned {| status := 200; body := success_true r;
                             cors := true |})
        | send_throws m =>
            Run {| outbox :=
                     outbox s
                     ++ [emailData html_created html_accepted html_rejected
                           type b d];
                   logged := logged s |}
                [console_error "Error sending email:"]
                (Returned {| status := 500; body := error m; cors := true |})
        end
    end.
Proof.
  unfold handler. destruct (decide (method = "OPTIONS")); [done|].
  destruct s, json as [m|id ty], found as [b|], driver_found as [d|], mail as [r|m'];
    reflexivity.
Qed.

(** X19. The notification function answers every request: it never
    throws, every answer carries the CORS headers and has status 200 or
    500; the status is 200 exactly for a preflight, or when the body
    parsed, the booking and the driver's profile were found and the mail
    service took the message.  It hands over at most one message, and
    none for a preflight, an unreadable body or a booking or driver that
    was not found. *)
Theorem X19_notification_answers method json found driver_found mail s :
  let res := handler html_created html_accepted html_rejected
               method json found driver_found mail s in
  ∃ resp,
    outcome res = Returned resp
    ∧ cors resp = true
    ∧ (status resp = 200 ∨ status resp = 500)
    ∧ (status resp = 200 ↔
       method = "OPTIONS"
       ∨ ∃ id type b d r, json = request_body id type ∧ found = Some b
                          ∧ driver_found = Some d ∧ mail = delivered r)
    ∧ (outbox (final res) = outbox s
       ∨ ∃ id type b d, json = request_body id type ∧ found = Some b
                        ∧ driver_found = Some d ∧ method ≠ "OPTIONS"
                        ∧ outbox (final res)
                          = outbox s
                            ++ [emailData html_created html_accepted
                                  html_rejected type b d]).
Proof.
  cbv zeta. rewrite handler_run.
  destruct (decide (method = "OPTIONS")) as [Hm|Hm].
  { eexists. split; [reflexivity|]. simpl.
    split; [done|]. split; [by left|]. split; [|by left]. split; [by left|done]. }
  assert (Hnot : ∀ P : Prop, (method = "OPTIONS" ∨ P) → P) by (intros P [?|?]; done).
  destruct json as [m|id ty].
  { eexists. split; [reflexivity|]. simpl.
    split; [done|]. split; [by right|]. split; [|by left].
    split; [done|]. by intros (? & ? & ? & ? & ? & ? & _)%Hnot. }
  destruct found as [b|].
  2:{ eexists. split; [reflexivity|]. simpl.
      split; [done|]. split; [by right|]. split; [|by left].
      split; [done|]. by intros (? & ? & ? & ? & ? & _ & ? & _)%Hnot. }
  destruct driver_found as [d|].
  2:{ eexists. split; [reflexivity|]. simpl.
      split; [done|]. split; [by right|]. split; [|by left].
      split; [done|]. by intros (? & ? & ? & ? & ? & _ & _ & ? & _)%Hnot. }
  destruct mail as [r|m'].
  - eexists. split; [reflexivity|]. simpl.
    split; [done|]. split; [by left|]. split.
    + split; [intros _|done]. right. by exists id, ty, b, d, r.
    + right. by exists id, ty, b, d.
  - eexists. split; [reflexivity|]. simpl.
    split; [done|]. split; [by right|]. split.
    + split; [done|]. by intros (? & ? & ? & ? & ? & _ & _ & _ & ?)%Hnot.
    + right. by exists id, ty, b, d.
Qed.

(** X20. A driver's decision reaches the passenger: for the type the
    driver dashboard sends with a decision, the function hands over
    exactly one message, addressed to the passenger of the booking and to
    nobody else, confirming when the decision was to accept; a
    [booking_created] message goes to the driver. *)
Theorem X20_decision_is_mailed_to_the_passenger decision bookingId b d r s :
  let type := DriverDashboard002.notification_type decision in
  let res := handler html_created html_accepted html_rejected
               "POST" (request_body bookingId type) (Some b) (Some d)
               (delivered r) s in
  (∃ e, outbox (final res) = outbox s ++ [Some e]
        ∧ to e = [Profile.email (passenger b)]
        ∧ (decision = booking_status.accepted ↔
           subject e = "Booking Confirmed - TripConnect"))
  ∧ (∃ e, emailData html_created html_accepted html_rejected
            "booking_created" b d = Some e
          ∧ to e = [Profile.email d]).
Proof.
  cbv zeta. rewrite handler_run. simpl. split; [|by eexists].
  unfold DriverDashboard002.notification_type.
  destruct (decide (decision = booking_status.accepted)) as [->|Hd];
    (eexists; split; [reflexivity|]; simpl; split; [done|]); [done|].
  split; [done|]. intros [=].
Qed.

End templates.

End NotificationFacts.

Module DirectionsFacts.
Import Fx Directions.

Lemma final_bind {S A B} (m : M S A) (k : A → M S B) (s : S) :
  final ((m ≫= k) s)
  = match outcome (m s) with
    | Returned a => final (k a (final (m s)))
    | Thrown _ => final (m s)
    end.
Proof. cbv [mbind M_bind bind]. by destruct (outcome (m s)). Qed.

Lemma final_try_catch {S A} (body : M S A) (handler : string → M S A) (s : S) :
  (∀ e s', final (handler e s') = s') →
  final (try_catch body handler s) = final (body s).
Proof. intros H. cbv [try_catch]. destruct (outcome (body s)); [done|apply H]. Qed.

Lemma final_bind_ret {S A B} (m : M S A) (k : A → M S B) (s : S) :
  (∀ a s', final (k a s') = s') → final ((m ≫= k) s) = final (m s).
Proof. intros H. rewrite final_bind. destruct (outcome (m s)); [apply H|done]. Qed.

Lemma endpoint_run coord name co g calls :
  endpoint coord name co g calls
  = Run (calls ++ match geocoding_needed coord name with
                  | Some n => [Geocode n (truthy co)]
                  | None => []
                  end)
        []
        (match coord, truthy name, g with
         | Some c, _, _ => Returned (Some c)
         | None, None, _ => Returned None
         | None, Some _, geocode_status st =>
             Thrown ("Geocoding failed: " +:+ pretty st)
         | None, Some _, geocode_features [] => Thrown "No results for geocoding"
         | None, Some _, geocode_features (c :: _) => Returned (Some c)
         | None, Some _, geocode_throws m => Thrown m
         end).
Proof.
  unfold endpoint, geocoding_needed, geocode, fetch.
  destruct coord as [c|]; [by rewrite app_nil_r|].
  destruct (truthy name) as [n|]; [|by rewrite app_nil_r].
  by destruct g as [st|[|c cs]|m].
Qed.

Lemma directions_final f t d calls :
  final (directions f t d calls) = calls ++ [GetDirections f t].
Proof. unfold directions, fetch. by destruct d as [st|[|r rs]|m]. Qed.

Ltac in_list H :=
  repeat (apply elem_of_cons in H as [H|H]; [try discriminate H|]);
  try (by apply elem_of_nil in H).

Ltac sent_facts :=
  split; [try done; by intros [[=]|[? [=]]]|];
  split; [simpl; lia|];
  intros ? Hb; first [discriminate Hb|injection Hb as <-|subst];
  cbn [fromCoord fromName toCoord toName country];
  repeat match goal with H : truthy _ = _ |- _ => rewrite H; clear H end;
  (split; [intros ? ? Hin; in_list Hin; injection Hin as <- <-; auto|]);
  (split; [intros ? ? Hin; in_list Hin; injection Hin as <- <-; auto|]);
  intros ? ? Htok Hf Ht; try discriminate Hf; try discriminate Ht;
  try (by apply is_Some_None in Htok);
  by injection Hf as <-; injection Ht as <-.

(** X21. What the directions function sends out.  Without the Mapbox
    token, or with an unreadable body, it sends nothing.  A place is
    geocoded only when its coordinates are missing and its name is set,
    under the country of the request; the route is asked for at most
    once, last, and only between two resolved endpoints; with both
    coordinates given that is the only request. *)
Theorem X21_directions_requests tok json gf gt d :
  let new := final (serve tok json gf gt d []) in
  (truthy tok = None ∨ (∃ m, json = bad_json m) → new = [])
  ∧ (length new ≤ 3)%nat
  ∧ ∀ body, json = request_body body →
      (∀ n c, Geocode n c ∈ new →
         c = truthy (country body)
         ∧ (geocoding_needed (fromCoord body) (fromName body) = Some n
            ∨ geocoding_needed (toCoord body) (toName body) = Some n))
      ∧ (∀ f t, GetDirections f t ∈ new →
           resolved (fromCoord body) (fromName body) gf = Some f
           ∧ resolved (toCoord body) (toName body) gt = Some t
           ∧ last new = Some (GetDirections f t))
      ∧ (∀ f t, is_Some (truthy tok) → fromCoord body = Some f →
           toCoord body = Some t → new = [GetDirections f t]).
Proof.
  intros new. assert (Hnew : new = final (serve tok json gf gt d [])) by done.
  clearbody new. revert Hnew. unfold serve, resolved, geocoding_needed.
  destruct (truthy tok) as [tk|]; [rewrite final_try_catch by done|].
  2: { cbn. intros ->. sent_facts. }
  destruct json as [m|[fn tn fc tc co]]; rewrite final_bind.
  { cbn. intros ->. sent_facts. }
  cbn [mret M_ret ret outcome final].
  rewrite final_bind, endpoint_run.
  cbn [outcome final fromCoord fromName toCoord toName country].
  unfold  geocoding_needed.
  destruct fc as [f|];
    [|destruct (truthy fn) as [n1|] eqn:Hfn; [destruct gf as [st1|[|c1 cs1]|m1]|]].
  all: cbn [app]; try (intros ->; sent_facts).
  all: rewrite final_bind, endpoint_run; cbn [outcome final]; unfold geocoding_needed.
  all: (destruct tc as [t|];
    [|destruct (truthy tn) as [n2|] eqn:Htn; [destruct gt as [st2|[|c2 cs2]|m2]|]]).
  all: cbn [app]; try (intros ->; sent_facts).
  all: rewrite final_bind_ret, directions_final by done.
  all: cbn [app]; intros ->; sent_facts.
Qed.
Lemma outcome_bind {S A B} (m : M S A) (k : A → M S B) (s : S) :
  outcome ((m ≫= k) s)
  = match outcome (m s) with
    | Returned a => outcome (k a (final (m s)))
    | Thrown e => Thrown e
    end.
Proof. cbv [mbind M_bind bind]. by destruct (outcome (m s)). Qed.

Lemma outcome_try_catch_ret {S A} (body : M S A) (h : string → A) (s : S) :
  outcome (try_catch body (λ e, ret (h e)) s)
  = Returned match outcome (body s) with
             | Returned a => a
             | Thrown e => h e
             end.
Proof. cbv [try_catch]. by destruct (outcome (body s)) eqn:E. Qed.

Ltac answer_facts :=
  eexists; split; [reflexivity|]; cbn [status body];
  (split; [auto|]);
  (split;
   [split;
    [first [by intros [=]
           |intros _; split; [done|]; do 5 eexists; split; [reflexivity|];
            cbn [fromCoord fromName toCoord toName];
            repeat match goal with H : truthy _ = _ |- _ => rewrite H end;
            by repeat split]
    |try (intros [_ (?&?&?&?&?&Hb&Hf&Ht&Hd&Hr)];
          first [discriminate Hb|discriminate Hd|injection Hb as <-];
          cbn [fromCoord fromName toCoord toName] in Hf, Ht;
          repeat match goal with H : truthy _ = _ |- _ => rewrite H in *; clear H end;
          try discriminate Hf; try discriminate Ht; done)]
   |try done; intros _; by eexists]).

(** X22. How the directions function answers.  It never throws: it
    answers 200, 400 or 500.  It answers 200 exactly when the token is
    set, the body is readable, both endpoints resolve and the routing
    service returns at least one route, and the body is then the first
    route; every other answer carries an error message. *)
Theorem X22_directions_answers tok json gf gt d calls :
  ∃ resp, outcome (serve tok json gf gt d calls) = Returned resp
    ∧ (status resp = 200 ∨ status resp = 400 ∨ status resp = 500)
    ∧ (status resp = 200 ↔
         is_Some (truthy tok)
         ∧ ∃ b f t route routes, json = request_body b
             ∧ resolved (fromCoord b) (fromName b) gf = Some f
             ∧ resolved (toCoord b) (toName b) gt = Some t
             ∧ d = directions_routes (route :: routes)
             ∧ body resp = coordinates route)
    ∧ (status resp ≠ 200 → ∃ m, body resp = error m).
Proof.
  unfold serve, resolved.
  destruct (truthy tok) as [tk|]; [rewrite outcome_try_catch_ret|].
  2: { eexists; split; [reflexivity|]. cbn [status body].
       split; [auto|]. split; [|by eexists].
       split; [done|]. by intros [[? [=]] _]. }
  destruct json as [m|[fn tn fc tc co]]; rewrite outcome_bind.
  { cbn. answer_facts. }
  cbn [mret M_ret ret outcome final].
  rewrite outcome_bind, endpoint_run.
  cbn [outcome final fromCoord fromName toCoord toName country].
  destruct fc as [f|];
    [|destruct (truthy fn) as [n1|] eqn:Hfn; [destruct gf as [st1|[|c1 cs1]|m1]|]].
  all: try (cbn [ret outcome]; answer_facts).
  all: rewrite outcome_bind, endpoint_run; cbn [outcome final].
  all: (destruct tc as [t|];
    [|destruct (truthy tn) as [n2|] eqn:Htn; [destruct gt as [st2|[|c2 cs2]|m2]|]]).
  all: try (cbn [ret outcome]; answer_facts).
  all: rewrite outcome_bind; unfold directions, fetch; rewrite outcome_bind.
  all: cbn [modify outcome final].
  all: destruct d as [st3|[|route routes]|m3]; cbn [ret throw outcome]; answer_facts.
Qed.

End DirectionsFacts.
